(** * home-ca: a shallow embedding of the certificate issuance code

    The development follows [src/home_ca/config.py], [src/home_ca/certs.py]
    and [src/home_ca/__main__.py].

    - The Python process state the code touches (the files under the output
      directory, the wall clock, the operating system's entropy) is an
      explicit [World], threaded through a state-and-exception monad [M].
      An exception leaves the world as it was when it was raised.
    - The [cryptography] package and [ipaddress.ip_address] are not part of
      the repository.  They are an interface, the class [X509Lib], whose
      laws are the documented contracts the code relies on (a key loads back
      from its own PEM, a signature made with a key verifies under its
      public key, a generated key has the requested size and exponent).
      Every theorem holds for any implementation of the interface; the
      module [Sym] gives a small symbolic one.
    - Argument validation done inside the library's constructors
      ([x509.NameAttribute], [x509.DNSName], the builder's setters) is not
      modelled, nor is a missing parent directory: both can only turn a
      successful run into an exception. *)

From Stdlib Require Import ZArith Lia Ascii.
From stdpp Require Import base option countable gmap strings list.

Abbreviation bytes := (list Byte.byte).

(** ** Exceptions and results *)

Inductive exn :=
| ValueError (msg : string)
| KeyError (key : string)
| IndexError
| OSError (path : string).

Inductive result (A : Type) :=
| Ok (a : A)
| Raise (e : exn).
Arguments Ok {A} a.
Arguments Raise {A} e.

(** The two error kinds of the core, as the source raises them. *)
Definition InvalidKeyType : exn := ValueError "Invalid key type".
Definition InvalidInput : exn :=
  ValueError "First name must be a string not an IP address".

(** ** The world: file system, clock and entropy *)

Record World := mkWorld {
  files : gmap string bytes;       (* regular files, by path *)
  dirs : gset string;              (* directories, by path *)
  clock : nat -> Z;                (* successive readings, microseconds *)
  ticks : nat;                     (* readings taken so far *)
  entropy : nat -> N;              (* successive draws of os.urandom *)
  draws : nat                      (* draws taken so far *)
}.

Definition with_files (f : gmap string bytes) (w : World) : World :=
  mkWorld f (dirs w) (clock w) (ticks w) (entropy w) (draws w).

Definition M (A : Type) : Type := World -> result A * World.

Definition ret {A} (a : A) : M A := fun w => (Ok a, w).
Definition raise {A} (e : exn) : M A := fun w => (Raise e, w).
Definition bind {A B} (m : M A) (k : A -> M B) : M B :=
  fun w => match m w with
           | (Ok a, w') => k a w'
           | (Raise e, w') => (Raise e, w')
           end.
Definition lift {A} (r : result A) : M A := fun w => (r, w).

Definition bind_result {A B} (r : result A) (k : A -> result B) : result B :=
  match r with
  | Ok a => k a
  | Raise e => Raise e
  end.

Notation "x <~ r ;; k" := (bind_result r (fun x => k))
  (at level 20, r at level 99, k at level 200, only parsing).
Notation "x <- m ;; k" := (bind m (fun x => k))
  (at level 20, m at level 99, k at level 200, only parsing).
Notation "m ;;; k" := (bind m (fun _ => k))
  (at level 20, k at level 200, only parsing).

(** [Path.exists]: true for a regular file and for a directory. *)
Definition exists_in (w : World) (p : string) : bool :=
  bool_decide (is_Some (files w !! p)) || bool_decide (p ∈ dirs w).

Definition path_exists (p : string) : M bool :=
  fun w => (Ok (exists_in w p), w).

(** [open(mode='rb')] followed by [read()]. *)
Definition read_file (p : string) : M bytes :=
  fun w => match files w !! p with
           | Some b => (Ok b, w)
           | None => (Raise (OSError p), w)
           end.

(** [open(mode='wb')]: creates the file or truncates it. *)
Definition open_wb (p : string) : M unit :=
  fun w => if bool_decide (p ∈ dirs w) then (Raise (OSError p), w)
           else (Ok tt, with_files (<[p := []]> (files w)) w).

(** [file.write(data)] on a handle opened by [open_wb]: appends. *)
Definition file_write (p : string) (data : bytes) : M unit :=
  fun w => match files w !! p with
           | Some old => (Ok tt, with_files (<[p := old ++ data]> (files w)) w)
           | None => (Raise (OSError p), w)
           end.

(** [Path.mkdir()]. *)
Definition mkdir (p : string) : M unit :=
  fun w => if exists_in w p then (Raise (OSError p), w)
           else (Ok tt, mkWorld (files w) ({[p]} ∪ dirs w) (clock w) (ticks w)
                                (entropy w) (draws w)).

(** [datetime.now(timezone.utc)], in microseconds since the epoch. *)
Definition now : M Z :=
  fun w => (Ok (clock w (ticks w)),
            mkWorld (files w) (dirs w) (clock w) (S (ticks w))
                    (entropy w) (draws w)).

(** One draw from the operating system's entropy source. *)
Definition urandom : M N :=
  fun w => (Ok (entropy w (draws w)),
            mkWorld (files w) (dirs w) (clock w) (ticks w)
                    (entropy w) (S (draws w))).

(** [pathlib]'s [/] on the paths the program builds. *)
Definition path_join (d f : string) : string := d +:+ "/" +:+ f.

(** ** X.509 data *)

Inductive NameOID :=
| COUNTRY_NAME | STATE_OR_PROVINCE_NAME | LOCALITY_NAME
| ORGANIZATION_NAME | COMMON_NAME.

#[global] Instance NameOID_eq_dec : EqDecision NameOID.
Proof. solve_decision. Defined.

Record NameAttribute := mkAttr { attr_oid : NameOID; attr_value : string }.

Definition Name := list NameAttribute.

(** [Name.get_attributes_for_oid]: the values of one attribute type. *)
Definition get_attributes_for_oid (o : NameOID) (n : Name) : list string :=
  attr_value <$> filter (fun a => attr_oid a = o) n.

Inductive IPAddr :=
| IPv4Address (n : N)
| IPv6Address (n : N).

(** An element of the [names] list of a server certificate:
    [str | IPv4Address | IPv6Address]. *)
Inductive NameOrIP :=
| Str (s : string)
| IP (a : IPAddr).

Inductive GeneralName :=
| DNSName (s : string)
| IPAddress (a : IPAddr).

Record KeyUsageBits := mkKeyUsage {
  digital_signature : bool;
  content_commitment : bool;
  key_encipherment : bool;
  data_encipherment : bool;
  key_agreement : bool;
  key_cert_sign : bool;
  crl_sign : bool;
  encipher_only : bool;
  decipher_only : bool
}.

Inductive ExtensionType :=
| BasicConstraints (ca : bool) (path_length : option N)
| KeyUsage (bits : KeyUsageBits)
| SubjectKeyIdentifier (digest : bytes)
| SubjectAlternativeName (general_names : list GeneralName)
| UnrecognizedExtension (oid : string) (value : bytes).

Record Extension := mkExt { ext_value : ExtensionType; critical : bool }.

Inductive HashAlgorithm := SHA1 | SHA256 | SHA384 | SHA512.

Inductive Encoding := PEM | DER.
Inductive PrivateFormat := TraditionalOpenSSL | PKCS8.
Inductive KeyEncryption := NoEncryption | BestAvailableEncryption (pw : bytes).

(** The key types are the library's own. *)
Class KeyTypes := {
  RSAPrivateKey : Type;
  RSAPublicKey : Type;
  OtherPrivateKey : Type     (* DSA, EC, Ed25519, ... *)
}.

Section X509Data.
Context `{KeyTypes}.

(** What [load_pem_private_key] can return. *)
Inductive PrivateKey :=
| RSAKey (k : RSAPrivateKey)
| NonRSAKey (k : OtherPrivateKey).

(** The signed part of a certificate. *)
Record TBSCertificate := mkTBS {
  subject : Name;
  issuer : Name;
  public_key : RSAPublicKey;
  serial_number : Z;
  not_valid_before : Z;
  not_valid_after : Z;
  extensions : list Extension;
  signature_hash_algorithm : HashAlgorithm
}.

Record Certificate := mkCert {
  tbs : TBSCertificate;
  signature : bytes
}.

(** [x509.CertificateBuilder]: every field starts unset. *)
Record CertificateBuilder := mkBuilder {
  b_subject_name : option Name;
  b_issuer_name : option Name;
  b_public_key : option RSAPublicKey;
  b_serial_number : option Z;
  b_not_valid_before : option Z;
  b_not_valid_after : option Z;
  b_extensions : list Extension
}.
End X509Data.

(** ** The library interface *)

Class X509Lib `{KeyTypes} := {
  (* rsa.generate_private_key(public_exponent, key_size), from one draw *)
  rsa_generate_private_key : Z -> Z -> N -> RSAPrivateKey;
  rsa_public_key : RSAPrivateKey -> RSAPublicKey;
  rsa_key_size : RSAPrivateKey -> Z;
  rsa_public_exponent : RSAPrivateKey -> Z;
  private_bytes :
    RSAPrivateKey -> Encoding -> PrivateFormat -> KeyEncryption -> bytes;
  load_pem_private_key : bytes -> option bytes -> result PrivateKey;
  public_bytes : Certificate -> Encoding -> bytes;
  load_pem_x509_certificate : bytes -> result Certificate;
  rsa_sign : RSAPrivateKey -> HashAlgorithm -> TBSCertificate -> bytes;
  rsa_verify :
    RSAPublicKey -> HashAlgorithm -> TBSCertificate -> bytes -> bool;
  ski_from_public_key : RSAPublicKey -> bytes;
  (* x509.random_serial_number(), from one draw *)
  serial_of_entropy : N -> Z;
  (* ipaddress.ip_address *)
  ip_address : string -> result IPAddr;

  generated_key_size : forall e bits seed,
    rsa_key_size (rsa_generate_private_key e bits seed) = bits;
  generated_public_exponent : forall e bits seed,
    rsa_public_exponent (rsa_generate_private_key e bits seed) = e;
  load_private_bytes : forall k,
    load_pem_private_key (private_bytes k PEM TraditionalOpenSSL NoEncryption)
                         None = Ok (RSAKey k);
  load_public_bytes : forall c,
    load_pem_x509_certificate (public_bytes c PEM) = Ok c;
  verify_sign : forall k h t,
    rsa_verify (rsa_public_key k) h t (rsa_sign k h t) = true
}.

(** ** config.py *)

(** [Host = namedtuple('Host', ['names', 'ip_addresses'], defaults=[[]])] *)
Record Host := mkHost { names : list string; ip_addresses : list string }.

(** What [Config.__init__] holds after the command line and the YAML file
    are read: [_args.output_directory] and the keys of [_file]. *)
Record Config := mkConfig {
  args_output_directory : option string;
  file_output_directory : option string;
  file_name : option (gmap string string);
  file_domain : option string;
  file_hosts : option (list Host)
}.

Definition output_path (cfg : Config) : string :=
  match args_output_directory cfg with
  | Some (String c d) => String c d
  | _ => default "certificates" (file_output_directory cfg)
  end.

Definition x509_name (cfg : Config) : result (gmap string string) :=
  match file_name cfg with
  | Some name =>
      if bool_decide (name = ∅)
      then Raise (ValueError "No x509 name defined in the config file")
      else Ok name
  | None => Raise (ValueError "No x509 name defined in the config file")
  end.

Definition domain (cfg : Config) : string := default "local" (file_domain cfg).

Definition hosts (cfg : Config) : result (list Host) :=
  match file_hosts cfg with
  | Some hs => Ok hs
  | None => Raise (ValueError "No hosts defined in the config file")
  end.

Definition ca_validity_days (cfg : Config) : Z := 825.
Definition server_validity_days (cfg : Config) : Z := 398.

(** [d[key]] on a dict. *)
Definition getitem (d : gmap string string) (key : string) : result string :=
  match d !! key with
  | Some v => Ok v
  | None => Raise (KeyError key)
  end.

(** [l[0]] on a list. *)
Definition first_item {A} (l : list A) : result A :=
  match l with
  | x :: _ => Ok x
  | [] => Raise IndexError
  end.

(** A list comprehension whose element expression can raise. *)
Fixpoint map_result {A B} (f : A -> result B) (l : list A) : result (list B) :=
  match l with
  | [] => Ok []
  | x :: l' =>
      match f x with
      | Ok y => match map_result f l' with
                | Ok ys => Ok (y :: ys)
                | Raise e => Raise e
                end
      | Raise e => Raise e
      end
  end.

(** [timedelta(days=d)], in microseconds. *)
Definition timedelta_days (d : Z) : Z := (d * 86400 * 1000000)%Z.

(** The encoding of a time in a certificate keeps whole seconds. *)
Definition asn1_time (t : Z) : Z := (1000000 * (t / 1000000))%Z.

(** ** certs.py *)

Section Certs.
Context `{X509Lib}.

Definition rsa_generate (public_exponent key_size : Z) : M RSAPrivateKey :=
  seed <- urandom ;;
  ret (rsa_generate_private_key public_exponent key_size seed).

Definition random_serial_number : M Z :=
  seed <- urandom ;; ret (serial_of_entropy seed).

Definition generate_or_load_key (key_file : string) : M RSAPrivateKey :=
  ex <- path_exists key_file ;;
  if ex : bool then
    data <- read_file key_file ;;
    private_key <- lift (load_pem_private_key data None) ;;
    match private_key with
    | RSAKey k => ret k
    | NonRSAKey _ => raise (ValueError "Invalid key type")
    end
  else
    private_key <- rsa_generate 65537 2048 ;;
    open_wb key_file ;;;
    file_write key_file
      (private_bytes private_key PEM TraditionalOpenSSL NoEncryption) ;;;
    ret private_key.

Definition generate_name (cfg : Config) (common_name : string) : result Name :=
  n <~ x509_name cfg ;; country <~ getitem n "country" ;;
  n <~ x509_name cfg ;; state <~ getitem n "state" ;;
  n <~ x509_name cfg ;; locality <~ getitem n "locality" ;;
  n <~ x509_name cfg ;; organization <~ getitem n "organization" ;;
  Ok [ mkAttr COUNTRY_NAME country;
       mkAttr STATE_OR_PROVINCE_NAME state;
       mkAttr LOCALITY_NAME locality;
       mkAttr ORGANIZATION_NAME organization;
       mkAttr COMMON_NAME common_name ].

(** The builder's methods. *)
Definition new_builder : CertificateBuilder :=
  mkBuilder None None None None None None [].
Definition set_subject_name (n : Name) (b : CertificateBuilder) :=
  mkBuilder (Some n) (b_issuer_name b) (b_public_key b) (b_serial_number b)
            (b_not_valid_before b) (b_not_valid_after b) (b_extensions b).
Definition set_issuer_name (n : Name) (b : CertificateBuilder) :=
  mkBuilder (b_subject_name b) (Some n) (b_public_key b) (b_serial_number b)
            (b_not_valid_before b) (b_not_valid_after b) (b_extensions b).
Definition set_public_key (k : RSAPublicKey) (b : CertificateBuilder) :=
  mkBuilder (b_subject_name b) (b_issuer_name b) (Some k) (b_serial_number b)
            (b_not_valid_before b) (b_not_valid_after b) (b_extensions b).
Definition set_serial_number (n : Z) (b : CertificateBuilder) :=
  mkBuilder (b_subject_name b) (b_issuer_name b) (b_public_key b) (Some n)
            (b_not_valid_before b) (b_not_valid_after b) (b_extensions b).
Definition set_not_valid_before (t : Z) (b : CertificateBuilder) :=
  mkBuilder (b_subject_name b) (b_issuer_name b) (b_public_key b)
            (b_serial_number b) (Some t) (b_not_valid_after b)
            (b_extensions b).
Definition set_not_valid_after (t : Z) (b : CertificateBuilder) :=
  mkBuilder (b_subject_name b) (b_issuer_name b) (b_public_key b)
            (b_serial_number b) (b_not_valid_before b) (Some t)
            (b_extensions b).
Definition add_extension (e : ExtensionType) (crit : bool)
    (b : CertificateBuilder) :=
  mkBuilder (b_subject_name b) (b_issuer_name b) (b_public_key b)
            (b_serial_number b) (b_not_valid_before b) (b_not_valid_after b)
            (b_extensions b ++ [mkExt e crit]).

(** [builder.sign(private_key, algorithm)]. *)
Definition builder_sign (private_key : RSAPrivateKey) (alg : HashAlgorithm)
    (b : CertificateBuilder) : result Certificate :=
  match b_subject_name b, b_issuer_name b, b_public_key b,
        b_serial_number b, b_not_valid_before b, b_not_valid_after b with
  | Some s, Some i, Some k, Some n, Some nb, Some na =>
      let t := mkTBS s i k n (asn1_time nb) (asn1_time na)
                     (b_extensions b) alg in
      Ok (mkCert t (rsa_sign private_key alg t))
  | _, _, _, _, _, _ =>
      Raise (ValueError "A certificate must have all its fields set")
  end.

(** Signature check of a certificate under a public key. *)
Definition verifies (k : RSAPublicKey) (c : Certificate) : bool :=
  rsa_verify k (signature_hash_algorithm (tbs c)) (tbs c) (signature c).

Definition ca_key_usage : ExtensionType :=
  KeyUsage (mkKeyUsage true false false false false true true false false).

Definition generate_or_load_ca_certificate (cfg : Config)
    (certificate_file : string) (ca_key : RSAPrivateKey) : M Certificate :=
  ex <- path_exists certificate_file ;;
  if ex : bool then
    data <- read_file certificate_file ;;
    lift (load_pem_x509_certificate data)
  else
    start_date <- now ;;
    let end_date := (start_date + timedelta_days (ca_validity_days cfg))%Z in
    n <- lift (x509_name cfg) ;;
    organization <- lift (getitem n "organization") ;;
    subj <- lift (generate_name cfg (organization +:+ " CA")) ;;
    serial <- random_serial_number ;;
    certificate <- lift (builder_sign ca_key SHA256
      (add_extension
         (SubjectKeyIdentifier (ski_from_public_key (rsa_public_key ca_key)))
         false
      (add_extension ca_key_usage true
      (add_extension (BasicConstraints true None) true
      (set_not_valid_after end_date
      (set_not_valid_before start_date
      (set_serial_number serial
      (set_public_key (rsa_public_key ca_key)
      (set_issuer_name subj
      (set_subject_name subj new_builder)))))))))) ;;
    open_wb certificate_file ;;;
    file_write certificate_file (public_bytes certificate PEM) ;;;
    ret certificate.

Definition general_name (name : NameOrIP) : GeneralName :=
  match name with
  | Str s => DNSName s
  | IP a => IPAddress a
  end.

Definition generate_or_load_server_certificate (cfg : Config)
    (certificate_file : string) (root_cert : Certificate)
    (root_key host_key : RSAPrivateKey) (names : list NameOrIP)
    : M Certificate :=
  ex <- path_exists certificate_file ;;
  if ex : bool then
    data <- read_file certificate_file ;;
    lift (load_pem_x509_certificate data)
  else
    start_date <- now ;;
    let end_date :=
      (start_date + timedelta_days (server_validity_days cfg))%Z in
    name0 <- lift (first_item names) ;;
    match name0 with
    | IP _ =>
        raise (ValueError "First name must be a string not an IP address")
    | Str common_name =>
        subj <- lift (generate_name cfg common_name) ;;
        let x509_names := map general_name names in
        serial <- random_serial_number ;;
        host_cert <- lift (builder_sign root_key SHA256
          (add_extension (SubjectAlternativeName x509_names) false
          (set_not_valid_after end_date
          (set_not_valid_before start_date
          (set_serial_number serial
          (set_public_key (rsa_public_key host_key)
          (set_issuer_name (subject (tbs root_cert))
          (set_subject_name subj new_builder)))))))) ;;
        open_wb certificate_file ;;;
        file_write certificate_file (public_bytes host_cert PEM) ;;;
        ret host_cert
    end.

Definition serialize_certificate (cert : Certificate) : bytes :=
  public_bytes cert PEM.

(** ** __main__.py *)

(** Lines 19-20: the primary name and the names of the certificate. *)
Definition host_names (cfg : Config) (host : Host)
    : result (string * list NameOrIP) :=
  match first_item (names host) with
  | Raise e => Raise e
  | Ok name =>
      match map_result ip_address (ip_addresses host) with
      | Raise e => Raise e
      | Ok ips =>
          Ok (name,
              map (fun name => Str (name +:+ "." +:+ domain cfg)) (names host)
              ++ map IP ips)
      end
  end.

(** Lines 19-29: the key and the certificate of one host. *)
Definition issue_host (cfg : Config) (output_path : string)
    (ca_cert : Certificate) (ca_key : RSAPrivateKey) (host : Host)
    : M (string * Certificate) :=
  nn <- lift (host_names cfg host) ;;
  let '(name, names) := nn in
  host_key <- generate_or_load_key
                (path_join output_path (name +:+ ".key.pem")) ;;
  host_cert <- generate_or_load_server_certificate cfg
                 (path_join output_path (name +:+ ".cert.pem"))
                 ca_cert ca_key host_key names ;;
  ret (name, host_cert).

(** Lines 31-36: the chain file. *)
Definition write_chain (chain_file : string) (ca_cert host_cert : Certificate)
    : M unit :=
  ex <- path_exists chain_file ;;
  if ex : bool then ret tt
  else
    open_wb chain_file ;;;
    file_write chain_file (serialize_certificate ca_cert) ;;;
    file_write chain_file (serialize_certificate host_cert).

(** The body of the loop over the hosts. *)
Definition main_host (cfg : Config) (output_path : string)
    (ca_cert : Certificate) (ca_key : RSAPrivateKey) (host : Host) : M unit :=
  nc <- issue_host cfg output_path ca_cert ca_key host ;;
  write_chain (path_join output_path (fst nc +:+ ".chain.pem")) ca_cert (snd nc).

Fixpoint for_each {A} (l : list A) (body : A -> M unit) : M unit :=
  match l with
  | [] => ret tt
  | x :: l' => body x ;;; for_each l' body
  end.

Definition main (cfg : Config) : M unit :=
  let output_path := output_path cfg in
  ex <- path_exists output_path ;;
  (if ex : bool then ret tt else mkdir output_path) ;;;
  ca_key <- generate_or_load_key (path_join output_path "ca.key.pem") ;;
  ca_cert <- generate_or_load_ca_certificate cfg
               (path_join output_path "ca.cert.pem") ca_key ;;
  hs <- lift (hosts cfg) ;;
  for_each hs (main_host cfg output_path ca_cert ca_key).

End Certs.

(** ** Vocabulary of the statements

    What the operations leave behind, and the relations between worlds the
    theorems are stated with. *)

Section Vocabulary.
Context `{X509Lib}.

(** A world [w'] extends [w] when every file of [w] is in [w'] with the
    same bytes. *)
Definition extends (w w' : World) : Prop :=
  forall p b, files w !! p = Some b -> files w' !! p = Some b.

(** The key [generate_or_load_key] generates in [w], and the world after
    one entropy draw or one clock reading. *)
Definition fresh_key (w : World) : RSAPrivateKey :=
  rsa_generate_private_key 65537 2048 (entropy w (draws w)).

Definition after_draw (w : World) : World :=
  mkWorld (files w) (dirs w) (clock w) (ticks w) (entropy w) (S (draws w)).

Definition after_tick (w : World) : World :=
  mkWorld (files w) (dirs w) (clock w) (S (ticks w)) (entropy w) (draws w).

(** The subject of the root certificate: line 62 of certs.py. *)
Definition ca_subject (cfg : Config) : result Name :=
  n <~ x509_name cfg ;;
  organization <~ getitem n "organization" ;;
  generate_name cfg (organization +:+ " CA").

Definition ca_extensions (ca_key : RSAPrivateKey) : list Extension :=
  [ mkExt (BasicConstraints true None) true;
    mkExt ca_key_usage true;
    mkExt (SubjectKeyIdentifier (ski_from_public_key (rsa_public_key ca_key)))
          false ].

(** The certificate the generating branch builds from the subject, the
    clock reading and the serial number. *)
Definition ca_certificate (cfg : Config) (subj : Name)
    (ca_key : RSAPrivateKey) (start_date serial : Z) : Certificate :=
  let t := mkTBS subj subj (rsa_public_key ca_key) serial
             (asn1_time start_date)
             (asn1_time (start_date + timedelta_days (ca_validity_days cfg)))
             (ca_extensions ca_key) SHA256 in
  mkCert t (rsa_sign ca_key SHA256 t).

(** The next clock reading and the next serial number of [w]. *)
Definition current_time (w : World) : Z := clock w (ticks w).
Definition next_serial (w : World) : Z :=
  serial_of_entropy (entropy w (draws w)).

(** The certificate the generating branch of
    [generate_or_load_server_certificate] builds. *)
Definition server_certificate (cfg : Config) (subj : Name)
    (root_cert : Certificate) (root_key host_key : RSAPrivateKey)
    (names : list NameOrIP) (start_date serial : Z) : Certificate :=
  let t := mkTBS subj (subject (tbs root_cert)) (rsa_public_key host_key)
             serial (asn1_time start_date)
             (asn1_time
                (start_date + timedelta_days (server_validity_days cfg)))
             [mkExt (SubjectAlternativeName (map general_name names)) false]
             SHA256 in
  mkCert t (rsa_sign root_key SHA256 t).

(** The four generate-or-load operations, as one family. *)
Inductive artifact_op :=
| KeyOp (key_file : string)
| CACertOp (cfg : Config) (certificate_file : string) (ca_key : RSAPrivateKey)
| ServerCertOp (cfg : Config) (certificate_file : string)
    (root_cert : Certificate) (root_key host_key : RSAPrivateKey)
    (names : list NameOrIP)
| ChainOp (chain_file : string) (ca_cert host_cert : Certificate).

Inductive artifact :=
| KeyArtifact (k : RSAPrivateKey)
| CertArtifact (c : Certificate)
| NoArtifact.

Definition target_path (op : artifact_op) : string :=
  match op with
  | KeyOp f | CACertOp _ f _ | ServerCertOp _ f _ _ _ _ | ChainOp f _ _ => f
  end.

Definition run_op (op : artifact_op) : M artifact :=
  match op with
  | KeyOp f => k <- generate_or_load_key f ;; ret (KeyArtifact k)
  | CACertOp cfg f ca_key =>
      c <- generate_or_load_ca_certificate cfg f ca_key ;; ret (CertArtifact c)
  | ServerCertOp cfg f root_cert root_key host_key names =>
      c <- generate_or_load_server_certificate cfg f root_cert root_key
             host_key names ;;
      ret (CertArtifact c)
  | ChainOp f ca_cert host_cert =>
      write_chain f ca_cert host_cert ;;; ret NoArtifact
  end.

(** [w'] grows [w]: every file is kept with its bytes, every directory is
    kept. *)
Definition grows (w w' : World) : Prop :=
  extends w w' /\ dirs w ⊆ dirs w'.

(** A computation only ever grows the world. *)
Definition growing {A} (m : M A) : Prop :=
  forall w, grows w (snd (m w)).

(** A computation that has succeeded once gives the same result, and
    changes nothing, in any world grown from the one it left. *)
Definition settled {A} (m : M A) : Prop :=
  forall w r w1 w2, m w = (Ok r, w1) -> grows w1 w2 -> m w2 = (Ok r, w2).

(** Lines 12-13 of [main]: create the output directory unless it exists. *)
Definition ensure_output_path (p : string) : M unit :=
  ex <- path_exists p ;; if ex : bool then ret tt else mkdir p.

(** The three files of a host, named after its first name. *)
Definition host_paths (out : string) (host : Host) : list string :=
  match names host with
  | name :: _ =>
      [ path_join out (name +:+ ".key.pem");
        path_join out (name +:+ ".cert.pem");
        path_join out (name +:+ ".chain.pem") ]
  | [] => []
  end.

(** The files of a configuration: the root's two and each host's three. *)
Definition output_files (cfg : Config) : list string :=
  path_join (output_path cfg) "ca.key.pem"
  :: path_join (output_path cfg) "ca.cert.pem"
  :: concat (map (host_paths (output_path cfg))
                 (default [] (file_hosts cfg))).


End Vocabulary.

(** ** A symbolic implementation of the library interface

    Keys are named by the draw they were generated from, a signature is
    the encoding of what was signed together with the signer's public key,
    and the PEM encoding is an injective encoding into bytes. *)

Module Sym.

Definition sym_private : Type := Z * Z * N.   (* exponent, size, secret *)
Definition sym_public : Type := Z * Z * N.    (* exponent, size, key id *)

#[local] Instance sym_keys : KeyTypes :=
  {| RSAPrivateKey := sym_private;
     RSAPublicKey := sym_public;
     OtherPrivateKey := string |}.

#[local] Instance byte_eq_dec : EqDecision Byte.byte := Byte.byte_eq_dec.
#[local] Instance byte_countable : Countable Byte.byte :=
  inj_countable Byte.to_N Byte.of_N Byte.of_to_N.

#[local] Instance NameOID_countable : Countable NameOID.
Proof.
  refine (inj_countable'
    (fun o => match o with
              | COUNTRY_NAME => 0 | STATE_OR_PROVINCE_NAME => 1
              | LOCALITY_NAME => 2 | ORGANIZATION_NAME => 3
              | COMMON_NAME => 4 end)%nat
    (fun n => match n with
              | 0 => COUNTRY_NAME | 1 => STATE_OR_PROVINCE_NAME
              | 2 => LOCALITY_NAME | 3 => ORGANIZATION_NAME
              | _ => COMMON_NAME end)%nat _).
  by intros [].
Defined.

#[local] Instance NameAttribute_eq_dec : EqDecision NameAttribute.
Proof. solve_decision. Defined.
#[local] Instance NameAttribute_countable : Countable NameAttribute.
Proof.
  refine (inj_countable' (fun a => (attr_oid a, attr_value a))
                         (fun p => mkAttr (fst p) (snd p)) _).
  by intros [].
Defined.

#[local] Instance IPAddr_eq_dec : EqDecision IPAddr.
Proof. solve_decision. Defined.
#[local] Instance IPAddr_countable : Countable IPAddr.
Proof.
  refine (inj_countable'
    (fun a => match a with IPv4Address n => inl n | IPv6Address n => inr n end)
    (fun s => match s with inl n => IPv4Address n | inr n => IPv6Address n end)
    _).
  by intros [].
Defined.

#[local] Instance GeneralName_eq_dec : EqDecision GeneralName.
Proof. solve_decision. Defined.
#[local] Instance GeneralName_countable : Countable GeneralName.
Proof.
  refine (inj_countable'
    (fun g => match g with DNSName s => inl s | IPAddress a => inr a end)
    (fun s => match s with inl s => DNSName s | inr a => IPAddress a end) _).
  by intros [].
Defined.

#[local] Instance KeyUsageBits_eq_dec : EqDecision KeyUsageBits.
Proof. solve_decision. Defined.
#[local] Instance KeyUsageBits_countable : Countable KeyUsageBits.
Proof.
  refine (inj_countable'
    (fun k => [digital_signature k; content_commitment k; key_encipherment k;
               data_encipherment k; key_agreement k; key_cert_sign k;
               crl_sign k; encipher_only k; decipher_only k])
    (fun l => match l with
              | [a; b; c; d; e; f; g; h; i] => mkKeyUsage a b c d e f g h i
              | _ => mkKeyUsage false false false false false false false
                                false false
              end) _).
  by intros [].
Defined.

#[local] Instance ExtensionType_eq_dec : EqDecision ExtensionType.
Proof. solve_decision. Defined.
#[local] Instance ExtensionType_countable : Countable ExtensionType.
Proof.
  refine (inj_countable'
    (fun e => match e with
              | BasicConstraints ca pl => inl (inl (ca, pl))
              | KeyUsage k => inl (inr k)
              | SubjectKeyIdentifier d => inr (inl d)
              | SubjectAlternativeName l => inr (inr (inl l))
              | UnrecognizedExtension o v => inr (inr (inr (o, v)))
              end)
    (fun s => match s with
              | inl (inl (ca, pl)) => BasicConstraints ca pl
              | inl (inr k) => KeyUsage k
              | inr (inl d) => SubjectKeyIdentifier d
              | inr (inr (inl l)) => SubjectAlternativeName l
              | inr (inr (inr (o, v))) => UnrecognizedExtension o v
              end) _).
  by intros [].
Defined.

#[local] Instance Extension_eq_dec : EqDecision Extension.
Proof. solve_decision. Defined.
#[local] Instance Extension_countable : Countable Extension.
Proof.
  refine (inj_countable' (fun e => (ext_value e, critical e))
                         (fun p => mkExt (fst p) (snd p)) _).
  by intros [].
Defined.

#[local] Instance HashAlgorithm_eq_dec : EqDecision HashAlgorithm.
Proof. solve_decision. Defined.
#[local] Instance HashAlgorithm_countable : Countable HashAlgorithm.
Proof.
  refine (inj_countable'
    (fun h => match h with
              | SHA1 => 0 | SHA256 => 1 | SHA384 => 2 | SHA512 => 3 end)%nat
    (fun n => match n with
              | 0 => SHA1 | 1 => SHA256 | 2 => SHA384 | _ => SHA512 end)%nat
    _).
  by intros [].
Defined.

#[local] Instance TBSCertificate_eq_dec : EqDecision TBSCertificate.
Proof. solve_decision. Defined.
#[local] Instance TBSCertificate_countable : Countable TBSCertificate.
Proof.
  refine (inj_countable'
    (fun t => (subject t, issuer t, public_key t, serial_number t,
               not_valid_before t, not_valid_after t, extensions t,
               signature_hash_algorithm t))
    (fun p => let '(s, i, k, n, nb, na, e, h) := p in
              mkTBS s i k n nb na e h) _).
  by intros [].
Defined.

#[local] Instance Certificate_eq_dec : EqDecision Certificate.
Proof. solve_decision. Defined.
#[local] Instance Certificate_countable : Countable Certificate.
Proof.
  refine (inj_countable' (fun c => (tbs c, signature c))
                         (fun p => mkCert (fst p) (snd p)) _).
  by intros [].
Defined.

#[local] Instance PrivateKey_eq_dec : EqDecision PrivateKey.
Proof. solve_decision. Defined.
#[local] Instance PrivateKey_countable : Countable PrivateKey.
Proof.
  refine (inj_countable'
    (fun k => match k with RSAKey k => inl k | NonRSAKey k => inr k end)
    (fun s => match s with inl k => RSAKey k | inr k => NonRSAKey k end) _).
  by intros [].
Defined.

(** Bits of a positive number, one byte per bit. *)
Fixpoint pos_to_bytes (p : positive) : bytes :=
  match p with
  | xH => []
  | xO q => Byte.x30 :: pos_to_bytes q
  | xI q => Byte.x31 :: pos_to_bytes q
  end.

Fixpoint bytes_to_pos (b : bytes) : positive :=
  match b with
  | [] => xH
  | Byte.x31 :: b' => xI (bytes_to_pos b')
  | _ :: b' => xO (bytes_to_pos b')
  end.

Definition to_bytes `{Countable A} (x : A) : bytes := pos_to_bytes (encode x).
Definition of_bytes `{Countable A} (b : bytes) : result A :=
  match decode (bytes_to_pos b) with
  | Some x => Ok x
  | None => Raise (ValueError "Could not deserialize data")
  end.

(** The PEM file of any private key, RSA or not. *)
Definition pem_private_key (k : PrivateKey) : bytes := to_bytes k.

Definition sym_public_key (k : sym_private) : sym_public := k.

Definition sym_sign (k : sym_private) (h : HashAlgorithm)
    (t : TBSCertificate) : bytes :=
  to_bytes (sym_public_key k, h, t).

Definition sym_verify (k : sym_public) (h : HashAlgorithm)
    (t : TBSCertificate) (sig : bytes) : bool :=
  bool_decide (sig = to_bytes (k, h, t)).

(** Dotted-quad IPv4 literals. *)
Definition digit (a : Ascii.ascii) : option N :=
  let n := Ascii.N_of_ascii a in
  if ((48 <=? n) && (n <=? 57))%N then Some (n - 48)%N else None.

Fixpoint parse_octets (s : string) (cur : option N) (acc : list N)
    : option (list N) :=
  match s with
  | EmptyString => o ← cur; Some (acc ++ [o])
  | String "."%char s' => o ← cur; parse_octets s' None (acc ++ [o])
  | String c s' =>
      d ← digit c;
      let v := (default 0 cur * 10 + d)%N in
      if (v <=? 255)%N then parse_octets s' (Some v) acc else None
  end.

Definition sym_ip_address (s : string) : result IPAddr :=
  match parse_octets s None [] with
  | Some [a; b; c; d] =>
      Ok (IPv4Address (((a * 256 + b) * 256 + c) * 256 + d)%N)
  | _ => Raise (ValueError "does not appear to be an IPv4 or IPv6 address")
  end.

#[local] Instance sym_lib : X509Lib.
Proof.
  refine
    {| rsa_generate_private_key := fun e bits seed => (e, bits, seed);
       rsa_public_key := sym_public_key;
       rsa_key_size := fun k => snd (fst k);
       rsa_public_exponent := fun k => fst (fst k);
       private_bytes := fun k _ _ _ => pem_private_key (RSAKey k);
       load_pem_private_key := fun b _ => of_bytes b;
       public_bytes := fun c _ => to_bytes c;
       load_pem_x509_certificate := of_bytes;
       rsa_sign := sym_sign;
       rsa_verify := sym_verify;
       ski_from_public_key := fun k => to_bytes k;
       serial_of_entropy := Z.of_N;
       ip_address := sym_ip_address |}.
  all: assert (R : forall p, bytes_to_pos (pos_to_bytes p) = p)
         by (intros p; induction p as [q IH|q IH|]; simpl; by rewrite ?IH).
  - reflexivity.
  - reflexivity.
  - intros k. unfold of_bytes, pem_private_key, to_bytes.
    by rewrite R, decode_encode.
  - intros c. unfold of_bytes, to_bytes. by rewrite R, decode_encode.
  - intros k h t. unfold sym_verify, sym_sign. by apply bool_decide_eq_true.
Defined.

(** *** Concrete inputs *)

(** An empty output directory, a clock and an entropy source. *)
Definition fresh_world : World :=
  mkWorld ∅ ∅ (fun n => 1762214400123456 + Z.of_nat n)%Z 0
          (fun n => N.of_nat n + 41)%N 0.

Definition home_name : gmap string string :=
  <["country" := "GB"]> (<["state" := "England"]>
  (<["locality" := "London"]> (<["organization" := "Home"]> ∅))).

Definition foo_host : Host := mkHost ["foo"; "foo-alt"] ["10.0.0.5"].

Definition home_cfg : Config :=
  mkConfig None (Some "out") (Some home_name) (Some "example.com")
           (Some [foo_host]).

(** The same configuration with one host, named like the root's files. *)
Definition ca_host_cfg : Config :=
  mkConfig None (Some "out") (Some home_name) (Some "example.com")
           (Some [mkHost ["ca"] []]).

Definition root_key : RSAPrivateKey := (65537%Z, 2048%Z, 7%N).

Definition home_subject (common_name : string) : Name :=
  [ mkAttr COUNTRY_NAME "GB"; mkAttr STATE_OR_PROVINCE_NAME "England";
    mkAttr LOCALITY_NAME "London"; mkAttr ORGANIZATION_NAME "Home";
    mkAttr COMMON_NAME common_name ].

(** The root certificate generated in the empty directory. *)
Definition root_cert : Certificate :=
  ca_certificate home_cfg (home_subject "Home CA") root_key
                 (current_time fresh_world) (next_serial fresh_world).

Definition root_world : World :=
  with_files (<["out/ca.cert.pem" := public_bytes root_cert PEM]>
                (files fresh_world))
             (after_draw (after_tick fresh_world)).

(** The key and the certificate issued to foo in the empty directory;
    [first_key] is the first key generated there. *)
Definition foo_names : list NameOrIP :=
  [ Str "foo.example.com"; Str "foo-alt.example.com";
    IP (IPv4Address 167772165) ].

Definition first_key : RSAPrivateKey := fresh_key fresh_world.

Definition first_key_world : World :=
  with_files (<["out/foo.key.pem" :=
                  private_bytes first_key PEM TraditionalOpenSSL NoEncryption]>
                (files fresh_world))
             (after_draw fresh_world).

(** The root key and certificate generated in the empty directory for the
    configuration whose host is named ca. *)
Definition ca_key_world : World :=
  with_files (<["out/ca.key.pem" :=
                  private_bytes first_key PEM TraditionalOpenSSL
                                NoEncryption]>
                (files fresh_world))
             (after_draw fresh_world).

Definition ca_run_cert : Certificate :=
  ca_certificate ca_host_cfg (home_subject "Home CA") first_key
                 (current_time ca_key_world) (next_serial ca_key_world).

Definition ca_run_world : World :=
  with_files (<["out/ca.cert.pem" := public_bytes ca_run_cert PEM]>
                (files ca_key_world))
             (after_draw (after_tick ca_key_world)).

Definition foo_leaf : Certificate :=
  server_certificate home_cfg (home_subject "foo.example.com") root_cert
    root_key first_key foo_names (current_time first_key_world)
    (next_serial first_key_world).

Definition foo_world : World :=
  with_files (<["out/foo.cert.pem" := public_bytes foo_leaf PEM]>
                (files first_key_world))
             (after_draw (after_tick first_key_world)).

(** The run of [main] for [home_cfg] in the empty directory, step by
    step: the directory, the root key, the root certificate, the key and
    the certificate of foo, the chain file. *)
Definition run_dir : World :=
  mkWorld (files fresh_world) ({["out"]} ∪ dirs fresh_world)
          (clock fresh_world) (ticks fresh_world) (entropy fresh_world)
          (draws fresh_world).

Definition run_ca_key : RSAPrivateKey := fresh_key run_dir.

Definition run_key_world : World :=
  with_files (<["out/ca.key.pem" :=
                  private_bytes run_ca_key PEM TraditionalOpenSSL
                                NoEncryption]> (files run_dir))
             (after_draw run_dir).

Definition run_ca_cert : Certificate :=
  ca_certificate home_cfg (home_subject "Home CA") run_ca_key
                 (current_time run_key_world) (next_serial run_key_world).

Definition run_root_world : World :=
  with_files (<["out/ca.cert.pem" := public_bytes run_ca_cert PEM]>
                (files run_key_world))
             (after_draw (after_tick run_key_world)).

Definition run_foo_key : RSAPrivateKey := fresh_key run_root_world.

Definition run_foo_key_world : World :=
  with_files (<["out/foo.key.pem" :=
                  private_bytes run_foo_key PEM TraditionalOpenSSL
                                NoEncryption]> (files run_root_world))
             (after_draw run_root_world).

Definition run_foo_leaf : Certificate :=
  server_certificate home_cfg (home_subject "foo.example.com") run_ca_cert
    run_ca_key run_foo_key foo_names (current_time run_foo_key_world)
    (next_serial run_foo_key_world).

Definition run_foo_world : World :=
  with_files (<["out/foo.cert.pem" := public_bytes run_foo_leaf PEM]>
                (files run_foo_key_world))
             (after_draw (after_tick run_foo_key_world)).

Definition run_final : World :=
  with_files (<["out/foo.chain.pem" :=
                  serialize_certificate run_ca_cert
                  ++ serialize_certificate run_foo_leaf]>
                (files run_foo_world))
             run_foo_world.

(** Configurations without hosts and without a name. *)
Definition no_hosts_cfg : Config :=
  mkConfig None (Some "out") (Some home_name) (Some "example.com") None.

Definition no_name_cfg : Config :=
  mkConfig None (Some "out") None (Some "example.com") (Some [foo_host]).

(** A directory in which the leaf certificate file of foo already holds a
    certificate. *)
Definition stored_cert_world : World :=
  with_files (<["out/foo.cert.pem" := public_bytes root_cert PEM]> ∅)
             fresh_world.

(** A key file with a 512-bit RSA key of exponent 3, and one with a key
    that is not RSA. *)
Definition weak_key : RSAPrivateKey := (3%Z, 512%Z, 5%N).
Definition weak_key_world : World :=
  with_files (<["out/ca.key.pem" :=
                  private_bytes weak_key PEM TraditionalOpenSSL NoEncryption]>
                ∅) fresh_world.
Definition ec_key_world : World :=
  with_files (<["out/ca.key.pem" := pem_private_key (NonRSAKey "EC")]> ∅)
             fresh_world.

End Sym.

(** * Properties *)

Section Properties.
Context `{X509Lib}.

(** ** The file system primitives *)

Lemma exists_in_false w p :
  exists_in w p = false -> files w !! p = None /\ p ∉ dirs w.
Proof.
  unfold exists_in. intros E. apply orb_false_iff in E as [E1 E2].
  apply bool_decide_eq_false in E1, E2. split; [|done].
  destruct (files w !! p) eqn:L; [|done]. destruct E1. by eexists.
Qed.

Lemma exists_in_file w p b : files w !! p = Some b -> exists_in w p = true.
Proof.
  intros L. unfold exists_in. apply orb_true_iff. left.
  apply bool_decide_eq_true. rewrite L. by eexists.
Qed.

Lemma with_files_id w : with_files (files w) w = w.
Proof. by destruct w. Qed.

(** Opening a fresh path for writing and writing [d] to it leaves a file
    holding exactly [d]. *)
Lemma write_fresh {A} p d (k : M A) w :
  p ∉ dirs w ->
  (open_wb p ;;; file_write p d ;;; k) w
  = k (with_files (<[p := d]> (files w)) w).
Proof.
  intros Hd. unfold bind, open_wb, file_write.
  rewrite bool_decide_eq_false_2 by done. simpl.
  rewrite lookup_insert_eq. simpl. unfold with_files. simpl.
  by rewrite insert_insert_eq.
Qed.

Lemma extends_refl w : extends w w.
Proof. by intros p b. Qed.

Lemma extends_trans w1 w2 w3 : extends w1 w2 -> extends w2 w3 -> extends w1 w3.
Proof. intros E1 E2 p b L. by apply E2, E1. Qed.

Lemma extends_insert_fresh w p d :
  files w !! p = None -> extends w (with_files (<[p := d]> (files w)) w).
Proof.
  intros L q b Lq. simpl. rewrite lookup_insert_ne; [done|]. congruence.
Qed.

(** ** generate_or_load_key *)

Lemma generate_or_load_key_absent key_file w :
  exists_in w key_file = false ->
  generate_or_load_key key_file w
  = (Ok (fresh_key w),
     with_files (<[key_file :=
                    private_bytes (fresh_key w) PEM TraditionalOpenSSL
                                  NoEncryption]> (files w))
                (after_draw w)).
Proof.
  intros E. destruct (exists_in_false _ _ E) as [Hf Hd].
  unfold generate_or_load_key. unfold bind at 1. unfold path_exists.
  rewrite E. unfold bind at 1. unfold rsa_generate, bind at 1, urandom, ret.
  fold (after_draw w). fold (fresh_key w).
  by rewrite write_fresh.
Qed.

Lemma generate_or_load_key_present key_file w :
  exists_in w key_file = true ->
  snd (generate_or_load_key key_file w) = w.
Proof.
  intros E. unfold generate_or_load_key, bind, path_exists, read_file, lift.
  rewrite E. destruct (files w !! key_file); [|done].
  destruct (load_pem_private_key _ _) as [[k|k]|e]; done.
Qed.

Lemma generate_or_load_key_stored key_file w data :
  files w !! key_file = Some data ->
  generate_or_load_key key_file w
  = (match load_pem_private_key data None with
     | Ok (RSAKey k) => Ok k
     | Ok (NonRSAKey _) => Raise InvalidKeyType
     | Raise e => Raise e
     end, w).
Proof.
  intros L. unfold generate_or_load_key, bind, path_exists, read_file, lift.
  rewrite (exists_in_file _ _ _ L), L.
  destruct (load_pem_private_key _ _) as [[k|k]|e]; done.
Qed.

(** ** generate_or_load_ca_certificate *)

Lemma generate_or_load_ca_certificate_absent cfg certificate_file ca_key w :
  exists_in w certificate_file = false ->
  generate_or_load_ca_certificate cfg certificate_file ca_key w
  = match ca_subject cfg with
    | Ok subj =>
        let c := ca_certificate cfg subj ca_key (current_time w)
                                (next_serial w) in
        (Ok c,
         with_files (<[certificate_file := public_bytes c PEM]> (files w))
                    (after_draw (after_tick w)))
    | Raise e => (Raise e, after_tick w)
    end.
Proof.
  intros E. destruct (exists_in_false _ _ E) as [Hf Hd].
  unfold generate_or_load_ca_certificate, ca_subject.
  unfold bind at 1. unfold path_exists. rewrite E.
  unfold bind at 1. unfold now. fold (after_tick w). fold (current_time w).
  unfold bind at 1. unfold lift at 1.
  destruct (x509_name cfg) as [n|e]; simpl; [|done].
  unfold bind at 1. unfold lift at 1.
  destruct (getitem n "organization") as [org|e]; simpl; [|done].
  unfold bind at 1. unfold lift at 1.
  destruct (generate_name cfg _) as [subj|e]; simpl; [|done].
  unfold bind at 1. unfold random_serial_number, bind at 1, urandom, ret.
  simpl. fold (after_draw (after_tick w)).
  unfold bind at 1. unfold lift at 1. simpl.
  change (serial_of_entropy (entropy w (draws w))) with (next_serial w).
  by rewrite write_fresh.
Qed.

Lemma load_certificate_stored f data w :
  files w !! f = Some data ->
  (data <- read_file f ;; lift (load_pem_x509_certificate data)) w
  = (load_pem_x509_certificate data, w).
Proof. intros L. unfold bind, read_file, lift. by rewrite L. Qed.

Lemma load_certificate_unchanged f w :
  snd ((data <- read_file f ;; lift (load_pem_x509_certificate data)) w) = w.
Proof. unfold bind, read_file, lift. by destruct (files w !! f). Qed.

Lemma generate_or_load_ca_certificate_present cfg certificate_file ca_key w :
  exists_in w certificate_file = true ->
  snd (generate_or_load_ca_certificate cfg certificate_file ca_key w) = w.
Proof.
  intros E. unfold generate_or_load_ca_certificate.
  unfold bind at 1. unfold path_exists. rewrite E.
  apply load_certificate_unchanged.
Qed.

Lemma generate_or_load_ca_certificate_stored cfg certificate_file ca_key w data :
  files w !! certificate_file = Some data ->
  generate_or_load_ca_certificate cfg certificate_file ca_key w
  = (load_pem_x509_certificate data, w).
Proof.
  intros L. unfold generate_or_load_ca_certificate.
  unfold bind at 1. unfold path_exists. rewrite (exists_in_file _ _ _ L).
  by apply load_certificate_stored.
Qed.

(** ** generate_or_load_server_certificate *)

Lemma generate_or_load_server_certificate_absent
    cfg certificate_file root_cert root_key host_key names w :
  exists_in w certificate_file = false ->
  generate_or_load_server_certificate cfg certificate_file root_cert root_key
                                      host_key names w
  = match names with
    | [] => (Raise IndexError, after_tick w)
    | IP _ :: _ => (Raise InvalidInput, after_tick w)
    | Str common_name :: _ =>
        match generate_name cfg common_name with
        | Ok subj =>
            let c := server_certificate cfg subj root_cert root_key host_key
                       names (current_time w) (next_serial w) in
            (Ok c,
             with_files (<[certificate_file := public_bytes c PEM]> (files w))
                        (after_draw (after_tick w)))
        | Raise e => (Raise e, after_tick w)
        end
    end.
Proof.
  intros E. destruct (exists_in_false _ _ E) as [Hf Hd].
  unfold generate_or_load_server_certificate.
  unfold bind at 1. unfold path_exists. rewrite E.
  unfold bind at 1. unfold now. fold (after_tick w). fold (current_time w).
  unfold bind at 1. unfold lift at 1.
  destruct names as [|[cn|a] rest]; simpl; [done| |done].
  unfold bind at 1. unfold lift at 1.
  destruct (generate_name cfg cn) as [subj|e]; simpl; [|done].
  unfold bind at 1. unfold random_serial_number, bind at 1, urandom, ret.
  simpl. fold (after_draw (after_tick w)).
  unfold bind at 1. unfold lift at 1. simpl.
  change (serial_of_entropy (entropy w (draws w))) with (next_serial w).
  by rewrite write_fresh.
Qed.

Lemma generate_or_load_server_certificate_present
    cfg certificate_file root_cert root_key host_key names w :
  exists_in w certificate_file = true ->
  snd (generate_or_load_server_certificate cfg certificate_file root_cert
         root_key host_key names w) = w.
Proof.
  intros E. unfold generate_or_load_server_certificate.
  unfold bind at 1. unfold path_exists. rewrite E.
  apply load_certificate_unchanged.
Qed.

Lemma generate_or_load_server_certificate_stored
    cfg certificate_file root_cert root_key host_key names w data :
  files w !! certificate_file = Some data ->
  generate_or_load_server_certificate cfg certificate_file root_cert root_key
                                      host_key names w
  = (load_pem_x509_certificate data, w).
Proof.
  intros L. unfold generate_or_load_server_certificate.
  unfold bind at 1. unfold path_exists. rewrite (exists_in_file _ _ _ L).
  by apply load_certificate_stored.
Qed.

(** ** Paths *)

Lemma append_nil t : "" +:+ t = t.
Proof. reflexivity. Qed.

Lemma append_cons c s t : String c s +:+ t = String c (s +:+ t).
Proof. reflexivity. Qed.

Lemma append_length s t :
  String.length (s +:+ t) = String.length s + String.length t.
Proof.
  induction s as [|c s IH]; [done|].
  rewrite append_cons. simpl. by rewrite IH.
Qed.

(** Two strings that end in suffixes of the same length and are equal have
    equal suffixes. *)
Lemma append_suffix_inj s1 s2 t1 t2 :
  String.length t1 = String.length t2 ->
  s1 +:+ t1 = s2 +:+ t2 -> s1 = s2 /\ t1 = t2.
Proof.
  intros L. revert s2.
  induction s1 as [|c s1 IH]; intros [|d s2] E;
    rewrite ?append_nil, ?append_cons in E.
  - done.
  - subst t1. simpl in L. rewrite append_length in L. lia.
  - subst t2. simpl in L. rewrite append_length in L. lia.
  - injection E as -> E. destruct (IH _ E) as [-> ->]. done.
Qed.

Lemma append_assoc s t u : (s +:+ t) +:+ u = s +:+ t +:+ u.
Proof.
  induction s as [|c s IH]; [done|]. rewrite !append_cons. by rewrite IH.
Qed.

Lemma path_join_inj d f g : path_join d f = path_join d g -> f = g.
Proof.
  unfold path_join. intros E. apply (inj (String.append d)) in E.
  by apply (inj (String.append "/")) in E.
Qed.

Lemma key_path_not_cert_path d name name' :
  path_join d (name +:+ ".key.pem") <> path_join d (name' +:+ ".cert.pem").
Proof.
  intros E. apply path_join_inj in E.
  change ".cert.pem" with ("." +:+ "cert.pem") in E.
  rewrite <- append_assoc in E.
  apply append_suffix_inj in E as [_ E]; [discriminate|done].
Qed.

Lemma key_path_not_chain_path d name name' :
  path_join d (name +:+ ".key.pem") <> path_join d (name' +:+ ".chain.pem").
Proof.
  intros E. apply path_join_inj in E.
  change ".chain.pem" with (".c" +:+ "hain.pem") in E.
  rewrite <- append_assoc in E.
  apply append_suffix_inj in E as [_ E]; [discriminate|done].
Qed.

Lemma cert_path_not_chain_path d name name' :
  path_join d (name +:+ ".cert.pem") <> path_join d (name' +:+ ".chain.pem").
Proof.
  intros E. apply path_join_inj in E.
  assert (E' : (name +:+ ".") +:+ "cert.pem"
               = (name' +:+ ".c") +:+ "hain.pem").
  { by rewrite !append_assoc. }
  apply append_suffix_inj in E' as [_ E']; [discriminate|done].
Qed.

(** ** Files are only ever added *)

Lemma extends_files w w' : files w' = files w -> extends w w'.
Proof. intros E p b. by rewrite E. Qed.

Lemma extends_insert w w' p d :
  files w !! p = None -> files w' = <[p := d]> (files w) -> extends w w'.
Proof.
  intros L E q b Lq. rewrite E, lookup_insert_ne; [done|]. congruence.
Qed.

Lemma generate_or_load_key_extends key_file w :
  extends w (snd (generate_or_load_key key_file w)).
Proof.
  destruct (exists_in w key_file) eqn:E.
  - rewrite generate_or_load_key_present by done. apply extends_refl.
  - rewrite generate_or_load_key_absent by done.
    eapply extends_insert; [by apply exists_in_false|done].
Qed.

Lemma generate_or_load_ca_certificate_extends cfg certificate_file ca_key w :
  extends w (snd (generate_or_load_ca_certificate cfg certificate_file
                    ca_key w)).
Proof.
  destruct (exists_in w certificate_file) eqn:E.
  - rewrite generate_or_load_ca_certificate_present by done.
    apply extends_refl.
  - rewrite generate_or_load_ca_certificate_absent by done.
    destruct (ca_subject cfg); simpl.
    + eapply extends_insert; [by apply exists_in_false|done].
    + by apply extends_files.
Qed.

Lemma generate_or_load_server_certificate_extends
    cfg certificate_file root_cert root_key host_key names w :
  extends w (snd (generate_or_load_server_certificate cfg certificate_file
                    root_cert root_key host_key names w)).
Proof.
  destruct (exists_in w certificate_file) eqn:E.
  - rewrite generate_or_load_server_certificate_present by done.
    apply extends_refl.
  - rewrite generate_or_load_server_certificate_absent by done.
    destruct names as [|[cn|a] rest]; simpl; try by apply extends_files.
    destruct (generate_name cfg cn); simpl.
    + eapply extends_insert; [by apply exists_in_false|done].
    + by apply extends_files.
Qed.

Lemma write_chain_absent chain_file ca_cert host_cert w :
  exists_in w chain_file = false ->
  write_chain chain_file ca_cert host_cert w
  = (Ok tt,
     with_files (<[chain_file := serialize_certificate ca_cert
                                 ++ serialize_certificate host_cert]>
                   (files w)) w).
Proof.
  intros E. destruct (exists_in_false _ _ E) as [Hf Hd].
  unfold write_chain. unfold bind at 1. unfold path_exists. rewrite E.
  unfold bind, open_wb, file_write.
  rewrite bool_decide_eq_false_2 by done. simpl.
  rewrite lookup_insert_eq. simpl. rewrite lookup_insert_eq.
  unfold with_files. simpl. by rewrite !insert_insert_eq.
Qed.

Lemma write_chain_present chain_file ca_cert host_cert w :
  exists_in w chain_file = true ->
  write_chain chain_file ca_cert host_cert w = (Ok tt, w).
Proof.
  intros E. unfold write_chain, bind, path_exists. by rewrite E.
Qed.

Lemma write_chain_extends chain_file ca_cert host_cert w :
  extends w (snd (write_chain chain_file ca_cert host_cert w)).
Proof.
  destruct (exists_in w chain_file) eqn:E.
  - rewrite write_chain_present by done. apply extends_refl.
  - rewrite write_chain_absent by done.
    eapply extends_insert; [by apply exists_in_false|done].
Qed.

Lemma bind_extends {A B} (m : M A) (k : A -> M B) w :
  extends w (snd (m w)) ->
  (forall a w1, extends w1 (snd (k a w1))) ->
  extends w (snd (bind m k w)).
Proof.
  intros Hm Hk. unfold bind. destruct (m w) as [[a|e] w1]; simpl in *.
  - eapply extends_trans; [exact Hm|apply Hk].
  - done.
Qed.

Lemma issue_host_extends cfg out ca_cert ca_key host w :
  extends w (snd (issue_host cfg out ca_cert ca_key host w)).
Proof.
  unfold issue_host. apply bind_extends; [apply extends_refl|].
  intros [name names] w1. apply bind_extends.
  { apply generate_or_load_key_extends. }
  intros host_key w2. apply bind_extends.
  { apply generate_or_load_server_certificate_extends. }
  intros host_cert w3. apply extends_refl.
Qed.

Lemma main_host_extends cfg out ca_cert ca_key host w :
  extends w (snd (main_host cfg out ca_cert ca_key host w)).
Proof.
  unfold main_host. apply bind_extends; [apply issue_host_extends|].
  intros nc w1. apply write_chain_extends.
Qed.

Lemma for_each_extends {A} (l : list A) (body : A -> M unit) :
  (forall x w, extends w (snd (body x w))) ->
  forall w, extends w (snd (for_each l body w)).
Proof.
  intros Hb. induction l as [|x l IH]; intros w; simpl.
  - apply extends_refl.
  - apply bind_extends; [apply Hb|]. intros _ w1. apply IH.
Qed.

Lemma main_extends cfg w : extends w (snd (main cfg w)).
Proof.
  unfold main. apply bind_extends; [apply extends_refl|].
  intros ex w1. apply bind_extends.
  { destruct ex; [apply extends_refl|]. unfold mkdir.
    destruct (exists_in w1 _); simpl; by apply extends_files. }
  intros _ w2. apply bind_extends; [apply generate_or_load_key_extends|].
  intros ca_key w3. apply bind_extends.
  { apply generate_or_load_ca_certificate_extends. }
  intros ca_cert w4. apply bind_extends; [apply extends_refl|].
  intros hs w5. apply for_each_extends. intros host w6.
  apply main_host_extends.
Qed.

(** ** Loading back what was generated *)

Lemma generate_or_load_key_again key_file w k w1 :
  generate_or_load_key key_file w = (Ok k, w1) ->
  generate_or_load_key key_file w1 = (Ok k, w1).
Proof.
  intros R. destruct (exists_in w key_file) eqn:E.
  - pose proof (generate_or_load_key_present _ _ E) as P.
    rewrite R in P. simpl in P. by subst w1.
  - rewrite generate_or_load_key_absent in R by done.
    injection R as <- <-.
    erewrite generate_or_load_key_stored; [|apply lookup_insert_eq].
    by rewrite load_private_bytes.
Qed.

Lemma generate_or_load_ca_certificate_again cfg certificate_file ca_key w c w1 :
  generate_or_load_ca_certificate cfg certificate_file ca_key w = (Ok c, w1) ->
  generate_or_load_ca_certificate cfg certificate_file ca_key w1 = (Ok c, w1).
Proof.
  intros R. destruct (exists_in w certificate_file) eqn:E.
  - pose proof (generate_or_load_ca_certificate_present cfg _ ca_key _ E) as P.
    rewrite R in P. simpl in P. by subst w1.
  - rewrite generate_or_load_ca_certificate_absent in R by done.
    destruct (ca_subject cfg) as [subj|e]; [|done]. simpl in R.
    injection R as <- <-.
    erewrite generate_or_load_ca_certificate_stored; [|apply lookup_insert_eq].
    by rewrite load_public_bytes.
Qed.

Lemma generate_or_load_server_certificate_again
    cfg certificate_file root_cert root_key host_key names w c w1 :
  generate_or_load_server_certificate cfg certificate_file root_cert root_key
    host_key names w = (Ok c, w1) ->
  generate_or_load_server_certificate cfg certificate_file root_cert root_key
    host_key names w1 = (Ok c, w1).
Proof.
  intros R. destruct (exists_in w certificate_file) eqn:E.
  - pose proof (generate_or_load_server_certificate_present cfg _ root_cert
                  root_key host_key names _ E) as P.
    rewrite R in P. simpl in P. by subst w1.
  - rewrite generate_or_load_server_certificate_absent in R by done.
    destruct names as [|[cn|a] rest]; try done.
    destruct (generate_name cfg cn) as [subj|e]; [|done]. simpl in R.
    injection R as <- <-.
    erewrite generate_or_load_server_certificate_stored;
      [|apply lookup_insert_eq].
    by rewrite load_public_bytes.
Qed.

Lemma write_chain_again chain_file ca_cert host_cert w r w1 :
  write_chain chain_file ca_cert host_cert w = (Ok r, w1) ->
  write_chain chain_file ca_cert host_cert w1 = (Ok r, w1).
Proof.
  intros R. destruct (exists_in w chain_file) eqn:E.
  - rewrite write_chain_present in R by done. injection R as <- <-.
    by apply write_chain_present.
  - rewrite write_chain_absent in R by done. injection R as <- <-.
    apply write_chain_present. eapply exists_in_file. apply lookup_insert_eq.
Qed.

(** ** The four generate-or-load operations, uniformly *)

Lemma bind_ret_snd {A B} (m : M A) (f : A -> B) w :
  snd ((a <- m ;; ret (f a)) w) = snd (m w).
Proof. unfold bind, ret. by destruct (m w) as [[a|e] w1]. Qed.

Lemma bind_ret_ok {A B} (m : M A) (f : A -> B) w b w1 :
  (a <- m ;; ret (f a)) w = (Ok b, w1) ->
  exists a, m w = (Ok a, w1) /\ b = f a.
Proof.
  unfold bind, ret. destruct (m w) as [[a|e] w2]; [|done].
  intros [= <- <-]. by exists a.
Qed.

Lemma bind_ret_eq {A B} (m : M A) (f : A -> B) w a w1 :
  m w = (Ok a, w1) -> (a <- m ;; ret (f a)) w = (Ok (f a), w1).
Proof. intros E. unfold bind, ret. by rewrite E. Qed.

(** C1. For each kind of artifact (key, root certificate, leaf certificate,
    chain file): when the target path exists the operation leaves the whole
    world, and so every stored byte, unchanged; no operation ever changes a
    file that is present; and a second invocation with the same path and
    inputs returns the same artifact and writes nothing. *)
Theorem C1_generate_or_load_idempotent (op : artifact_op) (w : World) :
  (exists_in w (target_path op) = true -> snd (run_op op w) = w) /\
  (forall p b, files w !! p = Some b ->
               files (snd (run_op op w)) !! p = Some b) /\
  (forall r w1, run_op op w = (Ok r, w1) -> run_op op w1 = (Ok r, w1)).
Proof.
  split; [|split].
  - intros E. destruct op; simpl in *; rewrite bind_ret_snd.
    + by apply generate_or_load_key_present.
    + by apply generate_or_load_ca_certificate_present.
    + by apply generate_or_load_server_certificate_present.
    + by rewrite write_chain_present.
  - destruct op; simpl; rewrite bind_ret_snd.
    + apply generate_or_load_key_extends.
    + apply generate_or_load_ca_certificate_extends.
    + apply generate_or_load_server_certificate_extends.
    + apply write_chain_extends.
  - intros r w1 R. destruct op; simpl in *;
      apply bind_ret_ok in R as (a & R & ->).
    + apply bind_ret_eq. by eapply generate_or_load_key_again.
    + apply bind_ret_eq. by eapply generate_or_load_ca_certificate_again.
    + apply bind_ret_eq.
      by eapply generate_or_load_server_certificate_again.
    + apply (bind_ret_eq _ (fun _ => NoArtifact) _ a).
      by eapply write_chain_again.
Qed.

(** ** Validity windows *)

Lemma asn1_time_le t : (asn1_time t <= t)%Z.
Proof. unfold asn1_time. apply Z.mul_div_le. lia. Qed.

Lemma asn1_time_lt t : (t < asn1_time t + 1000000)%Z.
Proof.
  unfold asn1_time.
  pose proof (Z.mod_pos_bound t 1000000 ltac:(lia)) as B.
  pose proof (Z.div_mod t 1000000 ltac:(lia)) as D. lia.
Qed.

Lemma asn1_time_add_days t d :
  asn1_time (t + timedelta_days d) = (asn1_time t + timedelta_days d)%Z.
Proof.
  unfold asn1_time, timedelta_days.
  replace (t + d * 86400 * 1000000)%Z with (t + (d * 86400) * 1000000)%Z
    by lia.
  rewrite Z.div_add by lia. lia.
Qed.

(** ** The claims *)

(** C8. A key generated by [generate_or_load_key] (the path was absent) is
    an RSA key of 2048 bits with public exponent 65537; the file holds its
    unencrypted PEM encoding, and loading that file gives the returned key
    back. *)
Theorem C8_fresh_key_shape (key_file : string) (w : World) :
  exists_in w key_file = false ->
  exists k w',
    generate_or_load_key key_file w = (Ok k, w') /\
    rsa_key_size k = 2048%Z /\
    rsa_public_exponent k = 65537%Z /\
    files w' !! key_file
      = Some (private_bytes k PEM TraditionalOpenSSL NoEncryption) /\
    generate_or_load_key key_file w' = (Ok k, w').
Proof.
  intros E. eexists _, _. split; [by apply generate_or_load_key_absent|].
  unfold fresh_key.
  rewrite generated_key_size, generated_public_exponent.
  split; [done|]. split; [done|]. split; [apply lookup_insert_eq|].
  eapply generate_or_load_key_again. by apply generate_or_load_key_absent.
Qed.

(** C9. On an existing key file whose bytes parse as a private key that is
    not RSA, [generate_or_load_key] raises the invalid key type error; when
    they parse as an RSA key, that key is returned, whatever its size and
    exponent; in both cases the world is unchanged. *)
Theorem C9_load_existing_key (key_file : string) (w : World) (data : bytes) :
  files w !! key_file = Some data ->
  (forall k, load_pem_private_key data None = Ok (NonRSAKey k) ->
             generate_or_load_key key_file w = (Raise InvalidKeyType, w)) /\
  (forall k, load_pem_private_key data None = Ok (RSAKey k) ->
             generate_or_load_key key_file w = (Ok k, w)).
Proof.
  intros L. split; intros k P;
    rewrite (generate_or_load_key_stored _ _ _ L), P; done.
Qed.

(** C5. A freshly generated root certificate has subject equal to issuer,
    with common name [<organization> CA]; its extensions are exactly the
    critical BasicConstraints (CA, no path length), the critical KeyUsage
    with only digitalSignature, keyCertSign and crlSign, and the
    non-critical SubjectKeyIdentifier of its public key; it is signed with
    SHA-256 by the root key and verifies under its own public key. *)
Theorem C5_fresh_root_certificate (cfg : Config) (certificate_file : string)
    (ca_key : RSAPrivateKey) (w w' : World) (c : Certificate) :
  exists_in w certificate_file = false ->
  generate_or_load_ca_certificate cfg certificate_file ca_key w = (Ok c, w') ->
  subject (tbs c) = issuer (tbs c) /\
  (exists n organization,
      x509_name cfg = Ok n /\ n !! "organization" = Some organization /\
      get_attributes_for_oid COMMON_NAME (subject (tbs c))
      = [organization +:+ " CA"]) /\
  extensions (tbs c)
  = [ mkExt (BasicConstraints true None) true;
      mkExt (KeyUsage (mkKeyUsage true false false false false true true
                                  false false)) true;
      mkExt (SubjectKeyIdentifier (ski_from_public_key (public_key (tbs c))))
            false ] /\
  signature_hash_algorithm (tbs c) = SHA256 /\
  signature c = rsa_sign ca_key SHA256 (tbs c) /\
  public_key (tbs c) = rsa_public_key ca_key /\
  verifies (public_key (tbs c)) c = true.
Proof.
  intros E R. rewrite generate_or_load_ca_certificate_absent in R by done.
  destruct (ca_subject cfg) as [subj|e] eqn:S; [|done].
  simpl in R. injection R as <- <-.
  split; [done|]. split.
  - unfold ca_subject, bind_result in S.
    destruct (x509_name cfg) as [n|] eqn:N; [|done].
    unfold getitem in S at 1.
    destruct (n !! "organization") as [org|] eqn:O; [|done].
    exists n, org. split; [done|]. split; [done|].
    unfold generate_name, bind_result in S. rewrite N in S.
    destruct (getitem n "country"); [|done].
    destruct (getitem n "state"); [|done].
    destruct (getitem n "locality"); [|done].
    destruct (getitem n "organization"); [|done].
    by injection S as <-.
  - repeat split; try done. unfold verifies. simpl. apply verify_sign.
Qed.

(** C6. A freshly generated root certificate is valid for at most 825 days
    and a freshly generated leaf certificate for at most 398 days; in both,
    notBefore is at most the time of generation, which is before
    notAfter. *)
Theorem C6_validity_bounds (cfg : Config) (certificate_file : string)
    (w w' : World) (c : Certificate) :
  exists_in w certificate_file = false ->
  (forall ca_key,
      generate_or_load_ca_certificate cfg certificate_file ca_key w
      = (Ok c, w') ->
      (not_valid_after (tbs c) - not_valid_before (tbs c)
       <= timedelta_days 825)%Z /\
      (not_valid_before (tbs c) <= current_time w
       < not_valid_after (tbs c))%Z) /\
  (forall root_cert root_key host_key names,
      generate_or_load_server_certificate cfg certificate_file root_cert
        root_key host_key names w = (Ok c, w') ->
      (not_valid_after (tbs c) - not_valid_before (tbs c)
       <= timedelta_days 398)%Z /\
      (not_valid_before (tbs c) <= current_time w
       < not_valid_after (tbs c))%Z).
Proof.
  intros E. split.
  - intros ca_key R.
    rewrite generate_or_load_ca_certificate_absent in R by done.
    destruct (ca_subject cfg) as [subj|e]; [|done].
    simpl in R. injection R as <- <-. simpl.
    rewrite asn1_time_add_days. unfold ca_validity_days.
    pose proof (asn1_time_le (current_time w)).
    pose proof (asn1_time_lt (current_time w)).
    unfold timedelta_days in *. lia.
  - intros root_cert root_key host_key names R.
    rewrite generate_or_load_server_certificate_absent in R by done.
    destruct names as [|[cn|a] rest]; try done.
    destruct (generate_name cfg cn) as [subj|e]; [|done].
    simpl in R. injection R as <- <-. simpl.
    rewrite asn1_time_add_days. unfold server_validity_days.
    pose proof (asn1_time_le (current_time w)).
    pose proof (asn1_time_lt (current_time w)).
    unfold timedelta_days in *. lia.
Qed.

(** C10. A freshly generated leaf certificate has exactly one extension, the
    non-critical SubjectAlternativeName; its entries follow the input names
    in order, a string as a DNSName and an IP address as an IPAddress. *)
Theorem C10_leaf_extensions (cfg : Config) (certificate_file : string)
    (root_cert : Certificate) (root_key host_key : RSAPrivateKey)
    (names : list NameOrIP) (w w' : World) (c : Certificate) :
  exists_in w certificate_file = false ->
  generate_or_load_server_certificate cfg certificate_file root_cert root_key
    host_key names w = (Ok c, w') ->
  exists sans,
    extensions (tbs c) = [mkExt (SubjectAlternativeName sans) false] /\
    length sans = length names /\
    (forall i s, names !! i = Some (Str s) -> sans !! i = Some (DNSName s)) /\
    (forall i a, names !! i = Some (IP a) -> sans !! i = Some (IPAddress a)).
Proof.
  intros E R.
  rewrite generate_or_load_server_certificate_absent in R by done.
  destruct names as [|[cn|a] rest] eqn:N; try done.
  destruct (generate_name cfg cn) as [subj|e]; [|done].
  simpl in R. injection R as <- <-. rewrite <- N.
  exists (map general_name names). split; [done|].
  split; [apply length_map|].
  split; intros i x L; change (map general_name names)
    with (general_name <$> names); by rewrite list_lookup_fmap, L.
Qed.

(** C3, as amended. With the certificate path absent and a first name that
    is an IP address, [generate_or_load_server_certificate] raises the
    invalid input error and no file is written.  With the path holding a
    file, the stored certificate is what the call returns (or the error of
    parsing it), the names are not looked at, and the world is unchanged. *)
Theorem C3_first_name_not_a_string (cfg : Config) (certificate_file : string)
    (root_cert : Certificate) (root_key host_key : RSAPrivateKey)
    (a : IPAddr) (rest : list NameOrIP) (w : World) :
  (exists_in w certificate_file = false ->
   exists w',
     generate_or_load_server_certificate cfg certificate_file root_cert
       root_key host_key (IP a :: rest) w = (Raise InvalidInput, w') /\
     files w' = files w /\ dirs w' = dirs w) /\
  (forall data, files w !! certificate_file = Some data ->
     generate_or_load_server_certificate cfg certificate_file root_cert
       root_key host_key (IP a :: rest) w
     = (load_pem_x509_certificate data, w)).
Proof.
  split.
  - intros E. exists (after_tick w).
    by rewrite generate_or_load_server_certificate_absent.
  - intros data L. by apply generate_or_load_server_certificate_stored.
Qed.

(** C7. When [main] reaches the chain file of a host and its path is
    absent, the file is written with the root certificate's PEM bytes
    immediately followed by the leaf certificate's; when the path holds a
    file nothing is written; and once a chain file is present no run of
    [main], with any configuration and from any later state of the
    directory, changes its bytes. *)
Theorem C7_chain_file (cfg : Config) (out : string) (ca_cert : Certificate)
    (ca_key : RSAPrivateKey) (host : Host) (w w1 : World) (name : string)
    (host_cert : Certificate) :
  issue_host cfg out ca_cert ca_key host w = (Ok (name, host_cert), w1) ->
  let chain_file := path_join out (name +:+ ".chain.pem") in
  (exists_in w1 chain_file = false ->
   exists w2,
     main_host cfg out ca_cert ca_key host w = (Ok tt, w2) /\
     files w2 !! chain_file
     = Some (public_bytes ca_cert PEM ++ public_bytes host_cert PEM)) /\
  (forall data, files w1 !! chain_file = Some data ->
     main_host cfg out ca_cert ca_key host w = (Ok tt, w1)) /\
  (forall data cfg' w',
     files w' !! chain_file = Some data ->
     files (snd (main cfg' w')) !! chain_file = Some data).
Proof.
  intros R chain_file. split; [|split].
  - intros E. eexists. unfold main_host, bind. rewrite R. simpl.
    split; [by apply write_chain_absent|]. apply lookup_insert_eq.
  - intros data L. unfold main_host, bind. rewrite R. simpl.
    apply write_chain_present. by eapply exists_in_file.
  - intros data cfg' w' L. by apply main_extends.
Qed.

(** ** One host *)

Lemma generate_name_common_name cfg common_name subj :
  generate_name cfg common_name = Ok subj ->
  get_attributes_for_oid COMMON_NAME subj = [common_name].
Proof.
  unfold generate_name, bind_result. intros S.
  destruct (x509_name cfg) as [n|]; [|done].
  destruct (getitem n "country"); [|done].
  destruct (getitem n "state"); [|done].
  destruct (getitem n "locality"); [|done].
  destruct (getitem n "organization"); [|done].
  by injection S as <-.
Qed.

Lemma generate_or_load_key_other key_file p w :
  p <> key_file ->
  exists_in (snd (generate_or_load_key key_file w)) p = exists_in w p.
Proof.
  intros N. destruct (exists_in w key_file) eqn:E.
  - by rewrite generate_or_load_key_present.
  - rewrite generate_or_load_key_absent by done.
    unfold exists_in. simpl. by rewrite lookup_insert_ne.
Qed.

Lemma generate_or_load_key_ok_stored key_file w k w1 :
  generate_or_load_key key_file w = (Ok k, w1) ->
  exists data, files w1 !! key_file = Some data /\
               load_pem_private_key data None = Ok (RSAKey k).
Proof.
  intros R. destruct (files w !! key_file) as [data|] eqn:L.
  - rewrite (generate_or_load_key_stored _ _ _ L) in R.
    exists data. injection R as R <-. split; [done|].
    destruct (load_pem_private_key data None) as [[k'|k']|e]; congruence.
  - destruct (exists_in w key_file) eqn:E.
    + unfold generate_or_load_key, bind, path_exists, read_file in R.
      by rewrite E, L in R.
    + rewrite generate_or_load_key_absent in R by done.
      injection R as <- <-. eexists. split; [apply lookup_insert_eq|].
      apply load_private_bytes.
Qed.

Lemma generate_or_load_ca_certificate_ok_stored cfg certificate_file ca_key
    w c w1 :
  generate_or_load_ca_certificate cfg certificate_file ca_key w = (Ok c, w1) ->
  exists data, files w1 !! certificate_file = Some data /\
               load_pem_x509_certificate data = Ok c.
Proof.
  intros R. destruct (files w !! certificate_file) as [data|] eqn:L.
  - rewrite (generate_or_load_ca_certificate_stored _ _ _ _ _ L) in R.
    exists data. by injection R as R <-.
  - destruct (exists_in w certificate_file) eqn:E.
    + unfold generate_or_load_ca_certificate, bind, path_exists, read_file
        in R.
      by rewrite E, L in R.
    + rewrite generate_or_load_ca_certificate_absent in R by done.
      destruct (ca_subject cfg); [|done]. simpl in R.
      injection R as <- <-. eexists. split; [apply lookup_insert_eq|].
      apply load_public_bytes.
Qed.

(** C2, as amended. For the host with names foo and foo-alt and address
    10.0.0.5 under the domain example.com, the freshly issued leaf
    certificate has common name foo.example.com (the qualified first name,
    not the bare one), a SubjectAlternativeName with the DNS names
    foo.example.com and foo-alt.example.com and the address 10.0.0.5, the
    root certificate's subject as issuer, and a signature that verifies
    under the root's public key. *)
Theorem C2_leaf_linkage (cfg : Config) (out : string) (ca_cert : Certificate)
    (ca_key : RSAPrivateKey) (addr : IPAddr) (w w' : World) (name : string)
    (leaf : Certificate) :
  file_domain cfg = Some "example.com" ->
  ip_address "10.0.0.5" = Ok addr ->
  public_key (tbs ca_cert) = rsa_public_key ca_key ->
  exists_in w (path_join out "foo.cert.pem") = false ->
  issue_host cfg out ca_cert ca_key (mkHost ["foo"; "foo-alt"] ["10.0.0.5"]) w
  = (Ok (name, leaf), w') ->
  name = "foo" /\
  get_attributes_for_oid COMMON_NAME (subject (tbs leaf))
  = ["foo.example.com"] /\
  extensions (tbs leaf)
  = [mkExt (SubjectAlternativeName
              [DNSName "foo.example.com"; DNSName "foo-alt.example.com";
               IPAddress addr]) false] /\
  issuer (tbs leaf) = subject (tbs ca_cert) /\
  verifies (public_key (tbs ca_cert)) leaf = true.
Proof.
  intros D A K E R. unfold issue_host in R. unfold bind at 1 in R.
  unfold lift, host_names, domain in R. simpl in R. rewrite A, D in R.
  simpl in R. unfold bind at 1 in R.
  assert (O : exists_in (snd (generate_or_load_key
                                (path_join out "foo.key.pem") w))
                 (path_join out "foo.cert.pem") = false).
  { rewrite generate_or_load_key_other; [done|].
    intros Q. by apply (key_path_not_cert_path out "foo" "foo"). }
  destruct (generate_or_load_key _ w) as [[host_key|e] w1]; [|done].
  simpl in O.
  unfold bind at 1 in R.
  rewrite generate_or_load_server_certificate_absent in R by done.
  change ("foo" +:+ "." +:+ "example.com") with "foo.example.com" in R.
  change ("foo-alt" +:+ "." +:+ "example.com")
    with "foo-alt.example.com" in R.
  destruct (generate_name cfg "foo.example.com") as [subj|e] eqn:S; [|done].
  simpl in R. unfold ret in R. injection R as <- <- <-.
  split; [done|]. split; [by eapply generate_name_common_name|].
  split; [done|]. split; [done|].
  unfold verifies. simpl. rewrite K. apply verify_sign.
Qed.

(** C4, on the code as it is.  A host whose first name is [ca] shares its
    key and certificate paths with the root: the key [main] obtains for it
    is the root key and its certificate is the root certificate itself, so
    the public keys are equal and, when the root certificate was generated
    by this run, the host certificate carries the CA extension. *)
Theorem C4_host_named_ca (cfg : Config) (others : list string)
    (w w1 w2 : World) (ca_key : RSAPrivateKey) (ca_cert : Certificate) :
  let out := output_path cfg in
  generate_or_load_key (path_join out "ca.key.pem") w = (Ok ca_key, w1) ->
  generate_or_load_ca_certificate cfg (path_join out "ca.cert.pem") ca_key w1
  = (Ok ca_cert, w2) ->
  exists host_cert,
    issue_host cfg out ca_cert ca_key (mkHost ("ca" :: others) []) w2
    = (Ok ("ca", host_cert), w2) /\
    host_cert = ca_cert /\
    public_key (tbs host_cert) = public_key (tbs ca_cert) /\
    (exists_in w1 (path_join out "ca.cert.pem") = false ->
     mkExt (BasicConstraints true None) true ∈ extensions (tbs host_cert)).
Proof.
  intros out R1 R2. exists ca_cert.
  destruct (generate_or_load_key_ok_stored _ _ _ _ R1) as (kd & Lk & Pk).
  destruct (generate_or_load_ca_certificate_ok_stored _ _ _ _ _ _ R2)
    as (cd & Lc & Pc).
  assert (Lk2 : files w2 !! path_join out "ca.key.pem" = Some kd).
  { pose proof (generate_or_load_ca_certificate_extends cfg
                  (path_join out "ca.cert.pem") ca_key w1) as X.
    rewrite R2 in X. by apply X. }
  split; [|split; [done|split; [done|]]].
  - unfold issue_host. unfold bind at 1. unfold lift, host_names. simpl.
    unfold bind at 1.
    change ("ca" +:+ ".key.pem") with "ca.key.pem".
    change ("ca" +:+ ".cert.pem") with "ca.cert.pem".
    fold out. rewrite (generate_or_load_key_stored _ _ _ Lk2), Pk.
    unfold bind at 1.
    rewrite (generate_or_load_server_certificate_stored _ _ _ _ _ _ _ _ Lc).
    by rewrite Pc.
  - intros E. rewrite generate_or_load_ca_certificate_absent in R2 by done.
    destruct (ca_subject cfg); [|done]. simpl in R2.
    injection R2 as <- <-. simpl. unfold ca_extensions. set_solver.
Qed.

(** The names [main] passes for a host always start with a string: the
    qualified first name. *)
Lemma host_names_first cfg host name nms :
  host_names cfg host = Ok (name, nms) ->
  exists more rest,
    names host = name :: more /\
    nms = Str (name +:+ "." +:+ domain cfg) :: rest.
Proof.
  unfold host_names. destruct (names host) as [|n more]; [done|]. simpl.
  destruct (map_result ip_address (ip_addresses host)) as [ips|e]; [|done].
  intros [= <- <-]. by eexists _, _.
Qed.

(** A host none of whose files exist gets a fresh key and a certificate
    signed by the root key. *)
Lemma issue_host_generates cfg out ca_cert ca_key host w name cn rest subj :
  host_names cfg host = Ok (name, Str cn :: rest) ->
  generate_name cfg cn = Ok subj ->
  exists_in w (path_join out (name +:+ ".key.pem")) = false ->
  exists_in w (path_join out (name +:+ ".cert.pem")) = false ->
  let host_key := fresh_key w in
  let w1 := with_files
              (<[path_join out (name +:+ ".key.pem") :=
                   private_bytes host_key PEM TraditionalOpenSSL
                                 NoEncryption]> (files w))
              (after_draw w) in
  let host_cert := server_certificate cfg subj ca_cert ca_key host_key
                     (Str cn :: rest) (current_time w1) (next_serial w1) in
  issue_host cfg out ca_cert ca_key host w
  = (Ok (name, host_cert),
     with_files (<[path_join out (name +:+ ".cert.pem") :=
                     public_bytes host_cert PEM]> (files w1))
                (after_draw (after_tick w1))).
Proof.
  intros N S Ek Ec host_key w1 host_cert.
  unfold issue_host. unfold bind at 1. unfold lift. rewrite N.
  unfold bind at 1. rewrite generate_or_load_key_absent by done.
  fold host_key. fold w1. unfold bind at 1.
  assert (Ec1 : exists_in w1 (path_join out (name +:+ ".cert.pem")) = false).
  { pose proof (generate_or_load_key_other
                  (path_join out (name +:+ ".key.pem"))
                  (path_join out (name +:+ ".cert.pem")) w) as O.
    rewrite generate_or_load_key_absent in O by done. simpl in O.
    unfold w1, host_key. rewrite O; [done|].
    intros Q. symmetry in Q. by apply key_path_not_cert_path in Q. }
  rewrite generate_or_load_server_certificate_absent by done.
  rewrite S. done.
Qed.

(** ** A second run *)

Lemma grows_refl w : grows w w.
Proof. split; [apply extends_refl|done]. Qed.

Lemma grows_trans w1 w2 w3 : grows w1 w2 -> grows w2 w3 -> grows w1 w3.
Proof.
  intros [E1 D1] [E2 D2]. split; [by eapply extends_trans|set_solver].
Qed.

Lemma grows_exists w w' p :
  grows w w' -> exists_in w p = true -> exists_in w' p = true.
Proof.
  intros [E D] X. unfold exists_in in *.
  apply orb_true_iff in X as [X|X]; apply bool_decide_eq_true in X;
    apply orb_true_iff; [left|right]; apply bool_decide_eq_true.
  - destruct X as [b L]. exists b. by apply E.
  - set_solver.
Qed.

Lemma growing_bind {A B} (m : M A) (k : A -> M B) :
  growing m -> (forall a, growing (k a)) -> growing (bind m k).
Proof.
  intros Gm Gk w. unfold bind. specialize (Gm w).
  destruct (m w) as [[a|e] w1]; simpl in *; [|done].
  eapply grows_trans; [exact Gm|apply Gk].
Qed.

Lemma growing_ret {A} (a : A) : growing (ret a).
Proof. intros w. apply grows_refl. Qed.

Lemma growing_lift {A} (r : result A) : growing (lift r).
Proof. intros w. apply grows_refl. Qed.

Lemma settled_ret {A} (a : A) : settled (ret a).
Proof. intros w r w1 w2 [= <- <-] _. done. Qed.

Lemma settled_lift {A} (x : result A) : settled (lift x).
Proof. intros w r w1 w2 [= -> <-] _. done. Qed.

Lemma settled_bind {A B} (m : M A) (k : A -> M B) :
  settled m -> (forall a, settled (k a)) -> (forall a, growing (k a)) ->
  settled (bind m k).
Proof.
  intros Sm Sk Gk w r w1 w2 R G. unfold bind in *.
  destruct (m w) as [[a|e] wa] eqn:Ra; [|done].
  assert (Ga : grows wa w1).
  { pose proof (Gk a wa) as X. by rewrite R in X. }
  rewrite (Sm _ _ _ w2 Ra) by (by eapply grows_trans).
  by eapply Sk.
Qed.

Lemma bind_assoc {A B C} (m : M A) (k : A -> M B) (h : B -> M C) w :
  bind m (fun a => bind (k a) h) w = bind (bind m k) h w.
Proof. unfold bind. by destruct (m w) as [[a|e] w1]. Qed.

Lemma growing_files_dirs {A} (m : M A) :
  (forall w, extends w (snd (m w))) ->
  (forall w, dirs (snd (m w)) = dirs w) ->
  growing m.
Proof. intros E D w. split; [apply E|]. by rewrite D. Qed.

Lemma generate_or_load_key_dirs key_file w :
  dirs (snd (generate_or_load_key key_file w)) = dirs w.
Proof.
  destruct (exists_in w key_file) eqn:E.
  - by rewrite generate_or_load_key_present.
  - by rewrite generate_or_load_key_absent.
Qed.

Lemma generate_or_load_ca_certificate_dirs cfg certificate_file ca_key w :
  dirs (snd (generate_or_load_ca_certificate cfg certificate_file ca_key w))
  = dirs w.
Proof.
  destruct (exists_in w certificate_file) eqn:E.
  - by rewrite generate_or_load_ca_certificate_present.
  - rewrite generate_or_load_ca_certificate_absent by done.
    by destruct (ca_subject cfg).
Qed.

Lemma generate_or_load_server_certificate_dirs
    cfg certificate_file root_cert root_key host_key names w :
  dirs (snd (generate_or_load_server_certificate cfg certificate_file
               root_cert root_key host_key names w)) = dirs w.
Proof.
  destruct (exists_in w certificate_file) eqn:E.
  - by rewrite generate_or_load_server_certificate_present.
  - rewrite generate_or_load_server_certificate_absent by done.
    destruct names as [|[cn|a] rest]; try done.
    by destruct (generate_name cfg cn).
Qed.

Lemma write_chain_dirs chain_file ca_cert host_cert w :
  dirs (snd (write_chain chain_file ca_cert host_cert w)) = dirs w.
Proof.
  destruct (exists_in w chain_file) eqn:E.
  - by rewrite write_chain_present.
  - by rewrite write_chain_absent.
Qed.

Lemma growing_generate_or_load_key key_file :
  growing (generate_or_load_key key_file).
Proof.
  apply growing_files_dirs; intros w;
    [apply generate_or_load_key_extends|apply generate_or_load_key_dirs].
Qed.

Lemma growing_generate_or_load_ca_certificate cfg certificate_file ca_key :
  growing (generate_or_load_ca_certificate cfg certificate_file ca_key).
Proof.
  apply growing_files_dirs; intros w;
    [apply generate_or_load_ca_certificate_extends
    |apply generate_or_load_ca_certificate_dirs].
Qed.

Lemma growing_generate_or_load_server_certificate
    cfg certificate_file root_cert root_key host_key names :
  growing (generate_or_load_server_certificate cfg certificate_file root_cert
             root_key host_key names).
Proof.
  apply growing_files_dirs; intros w;
    [apply generate_or_load_server_certificate_extends
    |apply generate_or_load_server_certificate_dirs].
Qed.

Lemma growing_write_chain chain_file ca_cert host_cert :
  growing (write_chain chain_file ca_cert host_cert).
Proof.
  apply growing_files_dirs; intros w;
    [apply write_chain_extends|apply write_chain_dirs].
Qed.

Lemma settled_generate_or_load_key key_file :
  settled (generate_or_load_key key_file).
Proof.
  intros w k w1 w2 R [E _].
  destruct (generate_or_load_key_ok_stored _ _ _ _ R) as (data & L & P).
  by rewrite (generate_or_load_key_stored _ _ _ (E _ _ L)), P.
Qed.

Lemma settled_generate_or_load_ca_certificate cfg certificate_file ca_key :
  settled (generate_or_load_ca_certificate cfg certificate_file ca_key).
Proof.
  intros w c w1 w2 R [E _].
  destruct (generate_or_load_ca_certificate_ok_stored _ _ _ _ _ _ R)
    as (data & L & P).
  by rewrite (generate_or_load_ca_certificate_stored _ _ _ _ _ (E _ _ L)), P.
Qed.

Lemma generate_or_load_server_certificate_ok_stored
    cfg certificate_file root_cert root_key host_key names w c w1 :
  generate_or_load_server_certificate cfg certificate_file root_cert root_key
    host_key names w = (Ok c, w1) ->
  exists data, files w1 !! certificate_file = Some data /\
               load_pem_x509_certificate data = Ok c.
Proof.
  intros R. destruct (files w !! certificate_file) as [data|] eqn:L.
  - rewrite (generate_or_load_server_certificate_stored
               _ _ _ _ _ _ _ _ L) in R.
    exists data. by injection R as R <-.
  - destruct (exists_in w certificate_file) eqn:E.
    + unfold generate_or_load_server_certificate, bind, path_exists,
        read_file in R.
      by rewrite E, L in R.
    + rewrite generate_or_load_server_certificate_absent in R by done.
      destruct names as [|[cn|a] rest]; try done.
      destruct (generate_name cfg cn); [|done]. simpl in R.
      injection R as <- <-. eexists. split; [apply lookup_insert_eq|].
      apply load_public_bytes.
Qed.

Lemma settled_generate_or_load_server_certificate
    cfg certificate_file root_cert root_key host_key names :
  settled (generate_or_load_server_certificate cfg certificate_file root_cert
             root_key host_key names).
Proof.
  intros w c w1 w2 R [E _].
  destruct (generate_or_load_server_certificate_ok_stored
              _ _ _ _ _ _ _ _ _ R) as (data & L & P).
  by rewrite (generate_or_load_server_certificate_stored
                _ _ _ _ _ _ _ _ (E _ _ L)), P.
Qed.

Lemma settled_write_chain chain_file ca_cert host_cert :
  settled (write_chain chain_file ca_cert host_cert).
Proof.
  intros w [] w1 w2 R G. apply write_chain_present.
  eapply grows_exists; [exact G|].
  destruct (exists_in w chain_file) eqn:E.
  - rewrite write_chain_present in R by done. by injection R as <-.
  - rewrite write_chain_absent in R by done. injection R as <-.
    eapply exists_in_file. apply lookup_insert_eq.
Qed.

Lemma growing_ensure_output_path p : growing (ensure_output_path p).
Proof.
  intros w. unfold ensure_output_path, bind, path_exists, mkdir, ret.
  destruct (exists_in w p) eqn:E; simpl; [apply grows_refl|].
  rewrite E. simpl. split; [by apply extends_files|set_solver].
Qed.

Lemma settled_ensure_output_path p : settled (ensure_output_path p).
Proof.
  intros w [] w1 w2 R G.
  assert (X : exists_in w1 p = true).
  { unfold ensure_output_path, bind, path_exists, mkdir, ret in R.
    destruct (exists_in w p) eqn:E; simpl in R.
    - by injection R as <-.
    - rewrite E in R. injection R as <-. unfold exists_in. simpl.
      apply orb_true_iff. right. apply bool_decide_eq_true. set_solver. }
  unfold ensure_output_path, bind, path_exists.
  by rewrite (grows_exists _ _ _ G X).
Qed.

Lemma growing_issue_host cfg out ca_cert ca_key host :
  growing (issue_host cfg out ca_cert ca_key host).
Proof.
  unfold issue_host. apply growing_bind; [apply growing_lift|].
  intros [name nms]. apply growing_bind.
  { apply growing_generate_or_load_key. }
  intros host_key. apply growing_bind.
  { apply growing_generate_or_load_server_certificate. }
  intros host_cert. apply growing_ret.
Qed.

Lemma settled_issue_host cfg out ca_cert ca_key host :
  settled (issue_host cfg out ca_cert ca_key host).
Proof.
  unfold issue_host. apply settled_bind; [apply settled_lift| |].
  - intros [name nms]. apply settled_bind.
    { apply settled_generate_or_load_key. }
    + intros host_key. apply settled_bind.
      { apply settled_generate_or_load_server_certificate. }
      * intros host_cert. apply settled_ret.
      * intros host_cert. apply growing_ret.
    + intros host_key. apply growing_bind.
      { apply growing_generate_or_load_server_certificate. }
      intros host_cert. apply growing_ret.
  - intros [name nms]. apply growing_bind.
    { apply growing_generate_or_load_key. }
    intros host_key. apply growing_bind.
    { apply growing_generate_or_load_server_certificate. }
    intros host_cert. apply growing_ret.
Qed.

Lemma growing_main_host cfg out ca_cert ca_key host :
  growing (main_host cfg out ca_cert ca_key host).
Proof.
  unfold main_host. apply growing_bind; [apply growing_issue_host|].
  intros nc. apply growing_write_chain.
Qed.

Lemma settled_main_host cfg out ca_cert ca_key host :
  settled (main_host cfg out ca_cert ca_key host).
Proof.
  unfold main_host. apply settled_bind; [apply settled_issue_host| |].
  - intros nc. apply settled_write_chain.
  - intros nc. apply growing_write_chain.
Qed.

Lemma growing_for_each {A} (l : list A) (body : A -> M unit) :
  (forall x, growing (body x)) -> growing (for_each l body).
Proof.
  intros Gb. induction l as [|x l IH]; simpl; [apply growing_ret|].
  apply growing_bind; [apply Gb|]. by intros _.
Qed.

Lemma settled_for_each {A} (l : list A) (body : A -> M unit) :
  (forall x, settled (body x)) -> (forall x, growing (body x)) ->
  settled (for_each l body).
Proof.
  intros Sb Gb. induction l as [|x l IH]; simpl; [apply settled_ret|].
  apply settled_bind; [apply Sb|by intros _|].
  intros _. by apply growing_for_each.
Qed.

(** [main], with its first two steps grouped. *)
Lemma main_unfold cfg w :
  main cfg w
  = (ensure_output_path (output_path cfg) ;;;
     ca_key <- generate_or_load_key
                 (path_join (output_path cfg) "ca.key.pem") ;;
     ca_cert <- generate_or_load_ca_certificate cfg
                  (path_join (output_path cfg) "ca.cert.pem") ca_key ;;
     hs <- lift (hosts cfg) ;;
     for_each hs (main_host cfg (output_path cfg) ca_cert ca_key)) w.
Proof. unfold main, ensure_output_path. simpl. by rewrite <- bind_assoc. Qed.

Lemma growing_main_rest cfg :
  growing (ca_key <- generate_or_load_key
                       (path_join (output_path cfg) "ca.key.pem") ;;
           ca_cert <- generate_or_load_ca_certificate cfg
                        (path_join (output_path cfg) "ca.cert.pem") ca_key ;;
           hs <- lift (hosts cfg) ;;
           for_each hs (main_host cfg (output_path cfg) ca_cert ca_key)).
Proof.
  apply growing_bind; [apply growing_generate_or_load_key|].
  intros ca_key. apply growing_bind.
  { apply growing_generate_or_load_ca_certificate. }
  intros ca_cert. apply growing_bind; [apply growing_lift|].
  intros hs. apply growing_for_each. intros host. apply growing_main_host.
Qed.

Lemma settled_main cfg : settled (main cfg).
Proof.
  intros w r w1 w2 R G. rewrite main_unfold in *. revert w r w1 w2 R G.
  apply settled_bind; [apply settled_ensure_output_path| |].
  2:{ intros _. apply growing_main_rest. }
  intros _. apply settled_bind; [apply settled_generate_or_load_key| |].
  2:{ intros ca_key. apply growing_bind.
      { apply growing_generate_or_load_ca_certificate. }
      intros ca_cert. apply growing_bind; [apply growing_lift|].
      intros hs. apply growing_for_each. intros host.
      apply growing_main_host. }
  intros ca_key. apply settled_bind.
  { apply settled_generate_or_load_ca_certificate. }
  2:{ intros ca_cert. apply growing_bind; [apply growing_lift|].
      intros hs. apply growing_for_each. intros host.
      apply growing_main_host. }
  intros ca_cert. apply settled_bind; [apply settled_lift| |].
  2:{ intros hs. apply growing_for_each. intros host.
      apply growing_main_host. }
  intros hs. apply settled_for_each.
  - intros host. apply settled_main_host.
  - intros host. apply growing_main_host.
Qed.

(** X1. After a successful run of [main], running it again, at once or after
    files and directories have been added, succeeds and leaves the
    directory, the clock and the entropy source exactly as it found them:
    nothing is generated and nothing is written. *)
Theorem main_rerun_changes_nothing (cfg : Config) (w w1 w2 : World) :
  main cfg w = (Ok tt, w1) ->
  grows w1 w2 ->
  main cfg w1 = (Ok tt, w1) /\ main cfg w2 = (Ok tt, w2).
Proof.
  intros R G. split.
  - eapply settled_main; [exact R|apply grows_refl].
  - eapply settled_main; [exact R|exact G].
Qed.

(** X2. Whatever its outcome, [main] keeps every file that exists with its
    bytes and keeps every directory. *)
Theorem main_keeps_existing_files (cfg : Config) (w : World) (p : string)
    (data : bytes) :
  files w !! p = Some data ->
  files (snd (main cfg w)) !! p = Some data /\
  dirs w ⊆ dirs (snd (main cfg w)).
Proof.
  intros L. rewrite main_unfold. 
  assert (G : growing
            (ensure_output_path (output_path cfg) ;;;
             ca_key <- generate_or_load_key
                         (path_join (output_path cfg) "ca.key.pem") ;;
             ca_cert <- generate_or_load_ca_certificate cfg
                          (path_join (output_path cfg) "ca.cert.pem")
                          ca_key ;;
             hs <- lift (hosts cfg) ;;
             for_each hs (main_host cfg (output_path cfg) ca_cert ca_key))).
  { apply growing_bind; [apply growing_ensure_output_path|].
    intros _. apply growing_main_rest. }
  destruct (G w) as [E D]. split; [by apply E|exact D].
Qed.


(** ** Names *)



(** ** File names *)

(** X8. The key, certificate and chain files never share a path, whatever the
    host names are. *)
Theorem artifact_paths_distinct (out name1 name2 : string) :
  path_join out (name1 +:+ ".key.pem")
  <> path_join out (name2 +:+ ".cert.pem") /\
  path_join out (name1 +:+ ".key.pem")
  <> path_join out (name2 +:+ ".chain.pem") /\
  path_join out (name1 +:+ ".cert.pem")
  <> path_join out (name2 +:+ ".chain.pem").
Proof.
  split; [apply key_path_not_cert_path|].
  split; [apply key_path_not_chain_path|apply cert_path_not_chain_path].
Qed.


(** ** The names main passes *)


(** A host with no names makes [main]'s loop body raise IndexError before
    anything is read or written, whatever its addresses are. *)
Theorem host_without_names_raises (cfg : Config) (out : string)
    (ca_cert : Certificate) (ca_key : RSAPrivateKey) (ips : list string)
    (w : World) :
  main_host cfg out ca_cert ca_key (mkHost [] ips) w = (Raise IndexError, w).
Proof. reflexivity. Qed.

(** ** Validity, exactly *)

(** X11. A freshly generated root certificate is valid for exactly 825 days and a
    freshly generated leaf certificate for exactly 398 days; notBefore is
    the time of generation cut to the whole second. *)
Theorem validity_spans_exact (cfg : Config) (certificate_file : string)
    (w w' : World) (c : Certificate) :
  exists_in w certificate_file = false ->
  (forall ca_key,
      generate_or_load_ca_certificate cfg certificate_file ca_key w
      = (Ok c, w') ->
      (not_valid_after (tbs c) - not_valid_before (tbs c)
       = 825 * 86400 * 1000000)%Z /\
      (0 <= current_time w - not_valid_before (tbs c) < 1000000)%Z /\
      (not_valid_before (tbs c) mod 1000000 = 0)%Z) /\
  (forall root_cert root_key host_key names,
      generate_or_load_server_certificate cfg certificate_file root_cert
        root_key host_key names w = (Ok c, w') ->
      (not_valid_after (tbs c) - not_valid_before (tbs c)
       = 398 * 86400 * 1000000)%Z /\
      (0 <= current_time w - not_valid_before (tbs c) < 1000000)%Z /\
      (not_valid_before (tbs c) mod 1000000 = 0)%Z).
Proof.
  assert (Z0 : forall t, (asn1_time t mod 1000000 = 0)%Z).
  { intros t. unfold asn1_time. rewrite Z.mul_comm. apply Z.mod_mul. lia. }
  intros E. split.
  - intros ca_key R.
    rewrite generate_or_load_ca_certificate_absent in R by done.
    destruct (ca_subject cfg) as [subj|e]; [|done].
    simpl in R. injection R as <- <-. simpl.
    rewrite asn1_time_add_days. unfold ca_validity_days.
    pose proof (asn1_time_le (current_time w)).
    pose proof (asn1_time_lt (current_time w)).
    unfold timedelta_days in *. split; [lia|]. split; [lia|apply Z0].
  - intros root_cert root_key host_key names R.
    rewrite generate_or_load_server_certificate_absent in R by done.
    destruct names as [|[cn|a] rest]; try done.
    destruct (generate_name cfg cn) as [subj|e]; [|done].
    simpl in R. injection R as <- <-. simpl.
    rewrite asn1_time_add_days. unfold server_validity_days.
    pose proof (asn1_time_le (current_time w)).
    pose proof (asn1_time_lt (current_time w)).
    unfold timedelta_days in *. split; [lia|]. split; [lia|apply Z0].
Qed.

(** ** Failing late *)

(** X12. With no hosts key in the configuration file, [main] raises the missing
    hosts error only after the root key and the root certificate have been
    obtained: on a directory without them, both files are there when the
    error is raised. *)
Theorem main_without_hosts_leaves_root_files (cfg : Config) (w w0 : World)
    (subj : Name) :
  let out := output_path cfg in
  file_hosts cfg = None ->
  ca_subject cfg = Ok subj ->
  ensure_output_path out w = (Ok tt, w0) ->
  exists_in w0 (path_join out "ca.key.pem") = false ->
  exists_in w0 (path_join out "ca.cert.pem") = false ->
  exists w',
    main cfg w
    = (Raise (ValueError "No hosts defined in the config file"), w') /\
    is_Some (files w' !! path_join out "ca.key.pem") /\
    is_Some (files w' !! path_join out "ca.cert.pem").
Proof.
  intros out Hh Hs R0 Ek Ec. rewrite main_unfold. fold out.
  unfold bind at 1. rewrite R0. unfold bind at 1.
  rewrite generate_or_load_key_absent by done. unfold bind at 1.
  rewrite generate_or_load_ca_certificate_absent.
  2:{ unfold exists_in in *. simpl. rewrite lookup_insert_ne; [done|].
      intros Q. apply path_join_inj in Q. discriminate. }
  rewrite Hs. simpl. unfold bind, lift, hosts. rewrite Hh. simpl.
  eexists. split; [done|]. simpl. split.
  - rewrite lookup_insert_ne.
    + rewrite lookup_insert_eq. by eexists.
    + intros Q. apply path_join_inj in Q. discriminate.
  - rewrite lookup_insert_eq. by eexists.
Qed.

(** X13. With no name in the configuration file, [main] on a directory without
    root files generates and writes the root key, then raises the missing
    name error: the key file is left behind and there is no certificate. *)
Theorem main_without_name_leaves_root_key (cfg : Config) (w w0 : World) :
  let out := output_path cfg in
  file_name cfg = None ->
  ensure_output_path out w = (Ok tt, w0) ->
  exists_in w0 (path_join out "ca.key.pem") = false ->
  exists_in w0 (path_join out "ca.cert.pem") = false ->
  exists w',
    main cfg w
    = (Raise (ValueError "No x509 name defined in the config file"), w') /\
    files w' !! path_join out "ca.key.pem"
    = Some (private_bytes (fresh_key w0) PEM TraditionalOpenSSL
                          NoEncryption) /\
    files w' !! path_join out "ca.cert.pem" = None.
Proof.
  intros out Hn R0 Ek Ec. rewrite main_unfold. fold out.
  unfold bind at 1. rewrite R0. unfold bind at 1.
  rewrite generate_or_load_key_absent by done. unfold bind at 1.
  rewrite generate_or_load_ca_certificate_absent.
  2:{ unfold exists_in in *. simpl. rewrite lookup_insert_ne; [done|].
      intros Q. apply path_join_inj in Q. discriminate. }
  unfold ca_subject, bind_result, x509_name. rewrite Hn.
  eexists. split; [done|]. simpl. split.
  - by rewrite lookup_insert_eq.
  - rewrite lookup_insert_ne.
    + by apply exists_in_false in Ec as [-> _].
    + intros Q. apply path_join_inj in Q. discriminate.
Qed.

(** ** The files of a run *)












Lemma bind_ok_inv {A B} (m : M A) (k : A -> M B) w r w' :
  bind m k w = (Ok r, w') ->
  exists a w1, m w = (Ok a, w1) /\ k a w1 = (Ok r, w').
Proof.
  unfold bind. destruct (m w) as [[a|e] w1]; [|done]. intros R.
  by exists a, w1.
Qed.

Lemma growing_ok {A} (m : M A) w r w1 :
  growing m -> m w = (Ok r, w1) -> grows w w1.
Proof. intros G R. specialize (G w). by rewrite R in G. Qed.

Lemma main_host_ok_exists cfg out ca_cert ca_key host w w1 p :
  main_host cfg out ca_cert ca_key host w = (Ok tt, w1) ->
  p ∈ host_paths out host -> exists_in w1 p = true.
Proof.
  intros R I. unfold main_host in R.
  apply bind_ok_inv in R as ([name c] & wi & Ri & Rc). simpl in Rc.
  unfold issue_host in Ri.
  apply bind_ok_inv in Ri as ([name' nms] & w0 & Rn & Ri).
  unfold lift in Rn. injection Rn as Rn <-.
  destruct (host_names_first _ _ _ _ Rn) as (more & rest & Nh & _).
  apply bind_ok_inv in Ri as (hk & wk & Rk & Ri).
  apply bind_ok_inv in Ri as (hc & wc & Rs & Ri).
  unfold ret in Ri. injection Ri as -> -> ->.
  unfold host_paths in I. rewrite Nh in I.
  destruct (generate_or_load_key_ok_stored _ _ _ _ Rk) as (kd & Lk & _).
  destruct (generate_or_load_server_certificate_ok_stored
              _ _ _ _ _ _ _ _ _ Rs) as (cd & Lc & _).
  pose proof (growing_ok _ _ _ _
                (growing_generate_or_load_server_certificate _ _ _ _ _ _)
                Rs) as G1.
  pose proof (growing_ok _ _ _ _ (growing_write_chain _ _ _) Rc) as G2.
  assert (X : exists_in w1 (path_join out (name +:+ ".chain.pem")) = true).
  { destruct (exists_in wi (path_join out (name +:+ ".chain.pem"))) eqn:E.
    - rewrite write_chain_present in Rc by done. by injection Rc as <-.
    - rewrite write_chain_absent in Rc by done. injection Rc as <-.
      eapply exists_in_file. apply lookup_insert_eq. }
  apply elem_of_cons in I as [->|I].
  { eapply (grows_exists wk); [exact (grows_trans _ _ _ G1 G2)|].
    by eapply exists_in_file. }
  apply elem_of_cons in I as [->|I].
  { eapply grows_exists; [exact G2|]. by eapply exists_in_file. }
  apply list_elem_of_singleton in I as ->. exact X.
Qed.

Lemma for_each_ok_exists {A} (S : A -> list string) (l : list A)
    (body : A -> M unit) :
  (forall x, growing (body x)) ->
  (forall x w w1 p, body x w = (Ok tt, w1) -> p ∈ S x ->
                    exists_in w1 p = true) ->
  forall w w1 p, for_each l body w = (Ok tt, w1) ->
                 p ∈ concat (map S l) -> exists_in w1 p = true.
Proof.
  intros Gb Hb. induction l as [|x l IH]; intros w w1 p R I; simpl in *.
  - by apply elem_of_nil in I.
  - apply bind_ok_inv in R as ([] & wa & Ra & Rr).
    apply elem_of_app in I as [I|I].
    + eapply grows_exists; [|by eapply Hb].
      by eapply (growing_ok _ _ _ _ (growing_for_each l body Gb)).
    + by eapply IH.
Qed.

(** X4. After a successful run of [main], the output directory and every
    configured output file exist. *)
Theorem main_success_leaves_all_output_files (cfg : Config) (w w' : World)
    (p : string) :
  main cfg w = (Ok tt, w') ->
  p = output_path cfg \/ p ∈ output_files cfg ->
  exists_in w' p = true.
Proof.
  intros R I. rewrite main_unfold in R.
  apply bind_ok_inv in R as ([] & w0 & R0 & R).
  pose proof (growing_ok _ _ _ _ (growing_main_rest cfg) R) as G0.
  apply bind_ok_inv in R as (ca_key & wk & Rk & R).
  pose proof R as R'.
  apply bind_ok_inv in R as (ca_cert & wc & Rc & R).
  apply bind_ok_inv in R as (hs & wh & Rh & R).
  unfold lift in Rh. injection Rh as Rh <-.
  pose proof (growing_ok _ _ _ _
                (growing_for_each hs _
                   (fun host => growing_main_host cfg (output_path cfg)
                                  ca_cert ca_key host)) R) as Gh.
  pose proof (growing_ok _ _ _ _
                (growing_generate_or_load_ca_certificate _ _ _) Rc) as Gc.
  destruct I as [->|I].
  { eapply grows_exists; [exact G0|].
    unfold ensure_output_path, bind, path_exists, mkdir, ret in R0.
    destruct (exists_in w (output_path cfg)) eqn:E; simpl in R0.
    - by injection R0 as <-.
    - rewrite E in R0. injection R0 as <-. unfold exists_in. simpl.
      apply orb_true_iff. right. apply bool_decide_eq_true. set_solver. }
  unfold output_files in I.
  apply elem_of_cons in I as [->|I].
  { destruct (generate_or_load_key_ok_stored _ _ _ _ Rk) as (kd & Lk & _).
    eapply (grows_exists wk); [exact (grows_trans _ _ _ Gc Gh)|].
    by eapply exists_in_file. }
  apply elem_of_cons in I as [->|I].
  { destruct (generate_or_load_ca_certificate_ok_stored _ _ _ _ _ _ Rc)
      as (cd & Lc & _).
    eapply grows_exists; [exact Gh|]. by eapply exists_in_file. }
  unfold hosts in Rh. destruct (file_hosts cfg) as [hs'|]; [|done].
  injection Rh as ->. simpl in I.
  eapply (for_each_ok_exists (host_paths (output_path cfg)) hs);
    [| |exact R|exact I].
  - intros host. apply growing_main_host.
  - intros host wa wb q. apply main_host_ok_exists.
Qed.

End Properties.

(** * Concrete runs on the symbolic library *)

Import Sym.
#[local] Existing Instance sym_keys.
#[local] Existing Instance sym_lib.

Lemma root_generated :
  generate_or_load_ca_certificate home_cfg "out/ca.cert.pem" root_key
    fresh_world = (Ok root_cert, root_world).
Proof.
  rewrite generate_or_load_ca_certificate_absent by (vm_compute; reflexivity).
  reflexivity.
Qed.

Lemma foo_issued :
  issue_host home_cfg "out" root_cert root_key foo_host fresh_world
  = (Ok ("foo", foo_leaf), foo_world).
Proof.
  rewrite (issue_host_generates home_cfg "out" root_cert root_key foo_host
             fresh_world "foo" "foo.example.com"
             [Str "foo-alt.example.com"; IP (IPv4Address 167772165)]
             (home_subject "foo.example.com"));
    [reflexivity|vm_compute; reflexivity..].
Qed.

(** Absence of a path in a world built by insertions into the empty
    directory. *)
Ltac absent :=
  unfold exists_in, foo_world, first_key_world, ca_run_world, ca_key_world,
    root_world, run_final, run_foo_world, run_foo_key_world, run_root_world,
    run_key_world, run_dir, fresh_world;
  cbn [files dirs with_files after_draw after_tick];
  rewrite ?lookup_insert_ne by discriminate;
  vm_compute; reflexivity.

Lemma home_dir : ensure_output_path "out" fresh_world = (Ok tt, run_dir).
Proof.
  unfold ensure_output_path, bind, path_exists, mkdir.
  replace (exists_in fresh_world "out") with false
    by (vm_compute; reflexivity).
  reflexivity.
Qed.

Lemma home_run : main home_cfg fresh_world = (Ok tt, run_final).
Proof.
  rewrite main_unfold. unfold bind at 1.
  change (output_path home_cfg) with "out". rewrite home_dir.
  unfold bind at 1.
  rewrite generate_or_load_key_absent by absent.
  unfold bind at 1.
  rewrite generate_or_load_ca_certificate_absent by absent.
  change (ca_subject home_cfg) with (Ok (home_subject "Home CA")).
  cbv zeta. unfold bind at 1. unfold lift at 1.
  change (hosts home_cfg) with (Ok [foo_host]).
  unfold for_each. unfold bind at 1. unfold main_host. unfold bind at 1.
  rewrite (issue_host_generates home_cfg "out" run_ca_cert
             run_ca_key foo_host run_root_world "foo" "foo.example.com"
             [Str "foo-alt.example.com"; IP (IPv4Address 167772165)]
             (home_subject "foo.example.com"));
    [|vm_compute; reflexivity|vm_compute; reflexivity|absent|absent].
  cbv zeta. unfold fst, snd.
  rewrite write_chain_absent by absent.
  reflexivity.
Qed.

Lemma foo_leaf_generated :
  generate_or_load_server_certificate home_cfg "out/foo.cert.pem" root_cert
    root_key first_key foo_names first_key_world = (Ok foo_leaf, foo_world).
Proof.
  rewrite generate_or_load_server_certificate_absent.
  - reflexivity.
  - absent.
Qed.

Lemma C1_witness :
  snd (run_op (KeyOp "out/ca.key.pem") weak_key_world) = weak_key_world.
Proof.
  apply (C1_generate_or_load_idempotent (KeyOp "out/ca.key.pem")
           weak_key_world).
  eapply exists_in_file. apply lookup_insert_eq.
Defined.

Lemma C8_witness :
  exists k w',
    generate_or_load_key "out/ca.key.pem" fresh_world = (Ok k, w') /\
    rsa_key_size k = 2048%Z /\ rsa_public_exponent k = 65537%Z.
Proof.
  destruct (C8_fresh_key_shape "out/ca.key.pem" fresh_world)
    as (k & w' & R & S & E & _).
  - vm_compute. reflexivity.
  - by exists k, w'.
Defined.

Lemma C9_witness :
  generate_or_load_key "out/ca.key.pem" weak_key_world
  = (Ok weak_key, weak_key_world) /\
  generate_or_load_key "out/ca.key.pem" ec_key_world
  = (Raise InvalidKeyType, ec_key_world).
Proof.
  split.
  - eapply (C9_load_existing_key "out/ca.key.pem" weak_key_world).
    + apply lookup_insert_eq.
    + vm_compute. reflexivity.
  - eapply (C9_load_existing_key "out/ca.key.pem" ec_key_world).
    + apply lookup_insert_eq.
    + vm_compute. reflexivity.
Defined.

Lemma C2_witness :
  get_attributes_for_oid COMMON_NAME (subject (tbs foo_leaf))
  = ["foo.example.com"] /\
  issuer (tbs foo_leaf) = subject (tbs root_cert) /\
  verifies (public_key (tbs root_cert)) foo_leaf = true.
Proof.
  destruct (C2_leaf_linkage home_cfg "out" root_cert root_key
              (IPv4Address 167772165) fresh_world foo_world "foo" foo_leaf)
    as (_ & CN & _ & I & V).
  - reflexivity.
  - vm_compute. reflexivity.
  - reflexivity.
  - vm_compute. reflexivity.
  - apply foo_issued.
  - exact (conj CN (conj I V)).
Defined.

(** C2, as stated, fails: the common name of the certificate issued to the
    host foo under example.com is foo.example.com, not foo. *)
Lemma C2_counterexample :
  issue_host home_cfg "out" root_cert root_key foo_host fresh_world
  = (Ok ("foo", foo_leaf), foo_world) /\
  get_attributes_for_oid COMMON_NAME (subject (tbs foo_leaf))
  = ["foo.example.com"] /\
  get_attributes_for_oid COMMON_NAME (subject (tbs foo_leaf)) <> ["foo"].
Proof.
  split; [apply foo_issued|]. split; [reflexivity|].
  change (get_attributes_for_oid COMMON_NAME (subject (tbs foo_leaf)))
    with ["foo.example.com"].
  discriminate.
Qed.

Lemma C3_witness :
  exists w',
    generate_or_load_server_certificate home_cfg "out/foo.cert.pem" root_cert
      root_key first_key (IP (IPv4Address 167772161) :: []) fresh_world
    = (Raise InvalidInput, w') /\
    files w' = files fresh_world.
Proof.
  destruct (C3_first_name_not_a_string home_cfg "out/foo.cert.pem" root_cert
              root_key first_key (IPv4Address 167772161) [] fresh_world)
    as [A _].
  destruct A as (w' & R & F & _).
  - vm_compute. reflexivity.
  - exists w'. exact (conj R F).
Defined.

(** C3, as stated, fails: with a certificate file already at the path, a
    names list that starts with the address 10.0.0.1 raises nothing and the
    stored certificate is returned. *)
Lemma C3_counterexample :
  generate_or_load_server_certificate home_cfg "out/foo.cert.pem" root_cert
    root_key first_key [IP (IPv4Address 167772161)] stored_cert_world
  = (Ok root_cert, stored_cert_world) /\
  fst (generate_or_load_server_certificate home_cfg "out/foo.cert.pem"
         root_cert root_key first_key [IP (IPv4Address 167772161)]
         stored_cert_world) <> Raise InvalidInput.
Proof.
  assert (R : generate_or_load_server_certificate home_cfg "out/foo.cert.pem"
                root_cert root_key first_key [IP (IPv4Address 167772161)]
                stored_cert_world = (Ok root_cert, stored_cert_world)).
  { erewrite generate_or_load_server_certificate_stored;
      [|apply lookup_insert_eq].
    rewrite load_public_bytes. reflexivity. }
  split; [exact R|]. rewrite R. discriminate.
Qed.

Lemma C4_witness :
  issue_host ca_host_cfg "out" ca_run_cert first_key (mkHost ["ca"] [])
    ca_run_world = (Ok ("ca", ca_run_cert), ca_run_world) /\
  public_key (tbs ca_run_cert) = rsa_public_key first_key /\
  mkExt (BasicConstraints true None) true ∈ extensions (tbs ca_run_cert).
Proof.
  assert (R1 : generate_or_load_key
                 (path_join (output_path ca_host_cfg) "ca.key.pem")
                 fresh_world = (Ok first_key, ca_key_world)).
  { rewrite generate_or_load_key_absent by (vm_compute; reflexivity).
    reflexivity. }
  assert (E : exists_in ca_key_world
                (path_join (output_path ca_host_cfg) "ca.cert.pem") = false).
  { absent. }
  assert (R2 : generate_or_load_ca_certificate ca_host_cfg
                 (path_join (output_path ca_host_cfg) "ca.cert.pem")
                 first_key ca_key_world = (Ok ca_run_cert, ca_run_world)).
  { rewrite generate_or_load_ca_certificate_absent by exact E. reflexivity. }
  destruct (C4_host_named_ca ca_host_cfg [] fresh_world ca_key_world
              ca_run_world first_key ca_run_cert R1 R2)
    as (c & R & -> & _ & X).
  exact (conj R (conj eq_refl (X E))).
Defined.

Lemma C5_witness :
  subject (tbs root_cert) = issuer (tbs root_cert) /\
  get_attributes_for_oid COMMON_NAME (subject (tbs root_cert)) = ["Home CA"] /\
  verifies (public_key (tbs root_cert)) root_cert = true.
Proof.
  destruct (C5_fresh_root_certificate home_cfg "out/ca.cert.pem" root_key
              fresh_world root_world root_cert)
    as (S & _ & _ & _ & _ & _ & V).
  - vm_compute. reflexivity.
  - apply root_generated.
  - exact (conj S (conj eq_refl V)).
Defined.

Lemma C6_witness :
  (not_valid_before (tbs root_cert) <= current_time fresh_world
   < not_valid_after (tbs root_cert))%Z /\
  (not_valid_after (tbs foo_leaf) - not_valid_before (tbs foo_leaf)
   <= timedelta_days 398)%Z.
Proof.
  split.
  - destruct (C6_validity_bounds home_cfg "out/ca.cert.pem" fresh_world
                root_world root_cert) as [A _]; [vm_compute; reflexivity|].
    exact (proj2 (A root_key root_generated)).
  - destruct (C6_validity_bounds home_cfg "out/foo.cert.pem" first_key_world
                foo_world foo_leaf) as [_ B]; [absent|].
    exact (proj1 (B root_cert root_key first_key foo_names
                    foo_leaf_generated)).
Defined.

Lemma C7_witness :
  exists w2,
    main_host home_cfg "out" root_cert root_key foo_host fresh_world
    = (Ok tt, w2) /\
    files w2 !! "out/foo.chain.pem"
    = Some (public_bytes root_cert PEM ++ public_bytes foo_leaf PEM).
Proof.
  eapply (C7_chain_file home_cfg "out" root_cert root_key foo_host
            fresh_world foo_world "foo" foo_leaf).
  - apply foo_issued.
  - absent.
Defined.

Lemma C10_witness :
  exists sans,
    extensions (tbs foo_leaf) = [mkExt (SubjectAlternativeName sans) false] /\
    length sans = 3.
Proof.
  destruct (C10_leaf_extensions home_cfg "out/foo.cert.pem" root_cert root_key
              first_key foo_names first_key_world foo_world foo_leaf)
    as (sans & X & L & _).
  - absent.
  - apply foo_leaf_generated.
  - exists sans. exact (conj X L).
Defined.

Lemma main_rerun_changes_nothing_witness :
  main home_cfg run_final = (Ok tt, run_final).
Proof.
  apply (main_rerun_changes_nothing home_cfg fresh_world run_final run_final).
  - apply home_run.
  - apply grows_refl.
Defined.

Lemma main_keeps_existing_files_witness :
  files (snd (main home_cfg weak_key_world)) !! "out/ca.key.pem"
  = Some (private_bytes weak_key PEM TraditionalOpenSSL NoEncryption).
Proof.
  apply (main_keeps_existing_files home_cfg weak_key_world "out/ca.key.pem").
  apply lookup_insert_eq.
Defined.





Lemma validity_spans_exact_witness :
  (not_valid_after (tbs root_cert) - not_valid_before (tbs root_cert)
   = 825 * 86400 * 1000000)%Z /\
  (not_valid_after (tbs foo_leaf) - not_valid_before (tbs foo_leaf)
   = 398 * 86400 * 1000000)%Z.
Proof.
  split.
  - destruct (validity_spans_exact home_cfg "out/ca.cert.pem" fresh_world
                root_world root_cert) as [A _]; [vm_compute; reflexivity|].
    exact (proj1 (A root_key root_generated)).
  - destruct (validity_spans_exact home_cfg "out/foo.cert.pem"
                first_key_world foo_world foo_leaf) as [_ B]; [absent|].
    exact (proj1 (B root_cert root_key first_key foo_names
                    foo_leaf_generated)).
Defined.

Lemma main_without_hosts_leaves_root_files_witness :
  exists w',
    main no_hosts_cfg fresh_world
    = (Raise (ValueError "No hosts defined in the config file"), w') /\
    is_Some (files w' !! "out/ca.key.pem") /\
    is_Some (files w' !! "out/ca.cert.pem").
Proof.
  apply (main_without_hosts_leaves_root_files no_hosts_cfg fresh_world
           run_dir (home_subject "Home CA")).
  - reflexivity.
  - vm_compute. reflexivity.
  - apply home_dir.
  - absent.
  - absent.
Defined.

Lemma main_without_name_leaves_root_key_witness :
  exists w',
    main no_name_cfg fresh_world
    = (Raise (ValueError "No x509 name defined in the config file"), w') /\
    files w' !! "out/ca.key.pem"
    = Some (private_bytes run_ca_key PEM TraditionalOpenSSL NoEncryption) /\
    files w' !! "out/ca.cert.pem" = None.
Proof.
  apply (main_without_name_leaves_root_key no_name_cfg fresh_world run_dir).
  - reflexivity.
  - apply home_dir.
  - absent.
  - absent.
Defined.


Lemma main_success_leaves_all_output_files_witness :
  exists_in run_final "out/foo.cert.pem" = true.
Proof.
  apply (main_success_leaves_all_output_files home_cfg fresh_world run_final).
  - apply home_run.
  - right. vm_compute. do 3 right. left.
Defined.
